(** * The live execution event-stream reducer

    A shallow embedding of the workflow store
    ([frontend/src/store/workflowStore], the zustand store) and of the
    WebSocket hook ([frontend/src/hooks/useWebsocket.ts]) that folds the
    decoded event envelopes into the store, followed by the properties the
    design document states about them.

    The hook receives values produced by [JSON.parse] and typed [any], so
    the embedding works on dynamically typed JavaScript values: the
    TypeScript annotations of the store are erased at run time and whatever
    the payload carries is what ends up in the store. *)

From stdpp Require Import gmap strings list fin_maps pretty.

#[local] Set Warnings "-register-all".
#[local] Open Scope string_scope.

(** ** JavaScript values *)

(** The numbers of the embedding are the safe integers, those of magnitude
    below 2^53: each is a double, [JSON.parse] returns it exactly, and it
    prints as its decimal numeral.  (The code never computes with a number,
    it only tests, stores and prints them; fractions, larger numbers and the
    negative zero have no counterpart here.) *)
Definition is_safe (n : Z) : bool := (Z.abs n <? 2 ^ 53)%Z.

Record number : Type := Number {
  number_Z : Z;
  number_safe : Is_true (is_safe number_Z)
}.

(** The values [JSON.parse] can return, plus [undefined], which is what
    reading a missing property gives.  Objects are finite maps from their
    own property names to values.  A string is a sequence of code units;
    the embedding has the strings whose code units are below 256, one
    character per code unit. *)
Inductive value : Type :=
  | JUndefined
  | JNull
  | JBool (b : bool)
  | JNum (n : number)
  | JStr (s : string)
  | JArr (l : list value)
  | JObj (m : gmap string value).

(** The exceptions that can reach the [catch] of the message handler. *)
Inductive exn : Type :=
  | SyntaxError
  | TypeError.

(** [ToBoolean]: the test of [if (v)] and the left operand of [||]. *)
Definition ToBoolean (v : value) : bool :=
  match v with
  | JUndefined | JNull => false
  | JBool b => b
  | JNum n => negb (number_Z n =? 0)%Z
  | JStr s => negb (String.eqb s "")
  | JArr _ | JObj _ => true
  end.

(** [ToString], as used when a value becomes a property key; [None] is a
    [TypeError].  An object converts through its [toString]: the inherited
    one gives "[object Object]", but an object parsed from JSON that has a
    [toString] key of its own has a value there that cannot be called, and
    the conversion throws.  An array converts through [join], which
    converts its elements in turn. *)
Fixpoint ToString (v : value) : option string :=
  match v with
  | JUndefined => Some "undefined"
  | JNull => Some "null"
  | JBool true => Some "true"
  | JBool false => Some "false"
  | JNum n => Some (pretty (number_Z n))
  | JStr s => Some s
  | JArr l =>
      String.concat "," <$>
        mapM (λ x, match x with
                   | JUndefined | JNull => Some ""
                   | _ => ToString x
                   end) l
  | JObj m =>
      match m !! "toString" with
      | Some _ => None
      | None => Some "[object Object]"
      end
  end.

(** [ToPropertyKey]: the key used by [obj[v]] and by [{ [v]: ... }]. *)
Definition ToPropertyKey (v : value) : option string := ToString v.

(** [ToPrimitive], as the [Date] constructor applies it to its argument: a
    primitive is left as it is; an array or an object parsed from JSON
    converts to the string [ToString] gives, or throws with it (their
    [valueOf] never gives a primitive). *)
Definition ToPrimitive (v : value) : option value :=
  match v with
  | JArr _ | JObj _ => JStr <$> ToString v
  | _ => Some v
  end.

(** The names of the members every object inherits from [Object.prototype];
    all of them are functions, but [__proto__], which reads as the prototype
    object itself. *)
Definition Object_prototype : list string :=
  ["constructor"; "__defineGetter__"; "__defineSetter__"; "hasOwnProperty";
   "__lookupGetter__"; "__lookupSetter__"; "isPrototypeOf";
   "propertyIsEnumerable"; "toString"; "valueOf"; "__proto__";
   "toLocaleString"].

(** [v.k] for the property names the hook reads ([type], [payload] and the
    payload fields; none of them is an index, [length] or a member of a
    built-in prototype).  Reading a property of [null] or [undefined]
    throws; on every other value a name that is not an own property gives
    [undefined]. *)
Definition read (v : value) (k : string) : option value :=
  match v with
  | JUndefined | JNull => None
  | JObj m => Some (default JUndefined (m !! k))
  | JBool _ | JNum _ | JStr _ | JArr _ => Some JUndefined
  end.

(** The code units of a string as one-unit string values. *)
Fixpoint chars (s : string) : list value :=
  match s with
  | EmptyString => []
  | String c s' => JStr (String c EmptyString) :: chars s'
  end.

(** [Object.entries(v)]: the own enumerable string-keyed properties.  For an
    object these are the bindings of the map; the order in which a finite
    map lists them is not JavaScript's, which is immaterial to the store
    since the keys are distinct.  [None] is the [TypeError] on [null] and
    [undefined]. *)
Definition Object_entries (v : value) : option (list (string * value)) :=
  match v with
  | JUndefined | JNull => None
  | JBool _ | JNum _ => Some []
  | JStr s => Some (imap (λ i c, (pretty i, c)) (chars s))
  | JArr l => Some (imap (λ i x, (pretty i, x)) l)
  | JObj m => Some (map_to_list m)
  end.

(** [v === 'lit'] against a string literal, the comparison of [switch]. *)
Definition strict_eq (v : value) (lit : string) : bool :=
  match v with
  | JStr s => bool_decide (s = lit)
  | _ => false
  end.

(** ** The store: [workflowStore] *)

(** [interface Agent], as a record is at run time: an object with some of
    these keys.  The interface is not enforced when the code runs, so a
    field is [Some v] when the record has that key and [None] when it has
    not, for the five fields the interface requires as for the three it
    leaves optional. *)
Module Agent.

Record t : Type := mk {
  id : option value;
  name : option value;
  role : option value;
  status : option value;
  thought : option value;
  lastToolCall : option value;
  output : option value;
  logs : option (list string)
}.

(** A record without keys. *)
Definition empty : t := mk None None None None None None None None.

End Agent.

(** [Partial<Agent>]: the object literal passed to [updateAgent]; a field is
    [Some v] when the literal has that key, whatever the value (a key whose
    value is [undefined] is still a key, and spreading copies it). *)
Module Partial.

Record t : Type := mk {
  id : option value;
  name : option value;
  role : option value;
  status : option value;
  thought : option value;
  lastToolCall : option value;
  output : option value;
  logs : option (list string)
}.

End Partial.

(** One key of [{ ...old, ...new }]: the value [new] has for it, and that
    of [old] when [new] has not the key. *)
Definition override {A : Type} (new old : option A) : option A :=
  match new with
  | Some v => Some v
  | None => old
  end.

(** [{ ...currentAgent, ...update }]: the keys of [update] win. *)
Definition spread (currentAgent : Agent.t) (update : Partial.t) : Agent.t :=
  {| Agent.id := override (Partial.id update) (Agent.id currentAgent);
     Agent.name := override (Partial.name update) (Agent.name currentAgent);
     Agent.role := override (Partial.role update) (Agent.role currentAgent);
     Agent.status := override (Partial.status update) (Agent.status currentAgent);
     Agent.thought := override (Partial.thought update) (Agent.thought currentAgent);
     Agent.lastToolCall :=
       override (Partial.lastToolCall update) (Agent.lastToolCall currentAgent);
     Agent.output := override (Partial.output update) (Agent.output currentAgent);
     Agent.logs := override (Partial.logs update) (Agent.logs currentAgent) |}.

(** The data fields of [interface WorkflowState]. *)
Record WorkflowState : Type := mkState {
  workflowId : option string;
  status : value;
  progress : value;
  agents : gmap string Agent.t;
  logs : list value;
  results : value;
  partialResults : gmap string value;
  connected : bool
}.

(** The state the store is created with, and the one [reset] restores. *)
Definition initial : WorkflowState :=
  {| workflowId := None;
     status := JStr "idle";
     progress := JNum (Number 0 I);
     agents := ∅;
     logs := [];
     results := JNull;
     partialResults := ∅;
     connected := false |}.

(** The declared values of [WorkflowState['status']]. *)
Definition WorkflowStatus : list string :=
  ["idle"; "initiated"; "running"; "completed"; "failed"; "paused"].

(** The actions.  Each is one [set(...)]: a shallow merge of the given
    fields into the current state. *)
Definition setWorkflowId (id : string) (state : WorkflowState) : WorkflowState :=
  mkState (Some id) (status state) (progress state) (agents state)
          (logs state) (results state) (partialResults state) (connected state).

Definition setStatus (status' : value) (state : WorkflowState) : WorkflowState :=
  mkState (workflowId state) status' (progress state) (agents state)
          (logs state) (results state) (partialResults state) (connected state).

Definition setProgress (progress' : value) (state : WorkflowState) : WorkflowState :=
  mkState (workflowId state) (status state) progress' (agents state)
          (logs state) (results state) (partialResults state) (connected state).

(** The record a first reference to an agent starts from. *)
Definition placeholder (agentId : value) : Agent.t :=
  {| Agent.id := Some agentId;
     Agent.name := Some (JStr "Unknown Agent");
     Agent.role := Some (JStr "Worker");
     Agent.status := Some (JStr "idle");
     Agent.thought := None;
     Agent.lastToolCall := None;
     Agent.output := None;
     Agent.logs := Some [] |}.

(** [state.agents[agentId] || { ...placeholder }], as far as the spread that
    follows can tell, [key] being the key [agentId] converts to.  The lookup
    goes through the prototype chain: a key [agents] has not of its own but
    [Object.prototype] has finds the inherited member, which is truthy, so
    the placeholder is skipped; that member has no enumerable property of
    its own, and spreading it gives a record without keys. *)
Definition currentAgent (key : string) (agentId : value)
    (state : WorkflowState) : Agent.t :=
  match agents state !! key with
  | Some agent => agent
  | None =>
      if bool_decide (key ∈ Object_prototype) then Agent.empty
      else placeholder agentId
  end.

(** [updateAgent]; [None] when the function passed to [set] throws the
    [TypeError] of converting [agentId] to a key, which leaves the store as
    it is. *)
Definition updateAgent (agentId : value) (update : Partial.t)
    (state : WorkflowState) : option WorkflowState :=
  key ← ToPropertyKey agentId;
  Some (mkState (workflowId state) (status state) (progress state)
          (<[key := spread (currentAgent key agentId state) update]>
             (agents state))
          (logs state) (results state) (partialResults state)
          (connected state)).

Definition addLog (log : value) (state : WorkflowState) : WorkflowState :=
  mkState (workflowId state) (status state) (progress state) (agents state)
          ((logs state ++ [log])%list) (results state) (partialResults state)
          (connected state).

Definition setResults (results' : value) (state : WorkflowState) : WorkflowState :=
  mkState (workflowId state) (status state) (progress state) (agents state)
          (logs state) results' (partialResults state) (connected state).

Definition updatePartialResults (key : string) (v : value)
    (state : WorkflowState) : WorkflowState :=
  mkState (workflowId state) (status state) (progress state) (agents state)
          (logs state) (results state) (<[key := v]> (partialResults state))
          (connected state).

Definition setConnected (connected' : bool) (state : WorkflowState) : WorkflowState :=
  mkState (workflowId state) (status state) (progress state) (agents state)
          (logs state) (results state) (partialResults state) connected'.

Definition reset (state : WorkflowState) : WorkflowState := initial.

(** ** Handlers: store actions in sequence, with exceptions *)

(** How a piece of handler code ends: normally with a value, or by throwing. *)
Inductive completion (A : Type) : Type :=
  | Normal (a : A)
  | Throw (e : exn).
Arguments Normal {A} a.
Arguments Throw {A} e.

(** Handler code runs against the store; the actions it dispatched before a
    throw stay applied. *)
Definition Handler (A : Type) : Type :=
  WorkflowState → completion A * WorkflowState.

#[export] Instance Handler_ret : MRet Handler :=
  λ A a state, (Normal a, state).

#[export] Instance Handler_bind : MBind Handler :=
  λ A B f m state,
    match m state with
    | (Normal a, state') => f a state'
    | (Throw e, state') => (Throw e, state')
    end.

(** Calling a store action. *)
Definition dispatch (action : WorkflowState → WorkflowState) : Handler unit :=
  λ state, (Normal tt, action state).

(** Calling a store action that can throw. *)
Definition attempt (action : WorkflowState → option WorkflowState)
    : Handler unit :=
  λ state,
    match action state with
    | Some state' => (Normal tt, state')
    | None => (Throw TypeError, state)
    end.

(** Evaluating [v.k]. *)
Definition Get (v : value) (k : string) : Handler value :=
  λ state,
    match read v k with
    | Some x => (Normal x, state)
    | None => (Throw TypeError, state)
    end.

(** Evaluating [event.payload.field]. *)
Definition payload (event : value) (field : string) : Handler value :=
  p ← Get event "payload"; Get p field.

(** [entries.forEach(([key, value]) => body)]. *)
Fixpoint forEach (entries : list (string * value))
    (body : string → value → Handler unit) : Handler unit :=
  match entries with
  | [] => mret tt
  | (key, v) :: rest => body key v ;; forEach rest body
  end.

(** The store a handler leaves behind. *)
Definition exec {A : Type} (h : Handler A) (state : WorkflowState) : WorkflowState :=
  (h state).2.

(** Whether a handler threw. *)
Definition thrown {A : Type} (h : Handler A) (state : WorkflowState) : option exn :=
  match (h state).1 with
  | Normal _ => None
  | Throw e => Some e
  end.

(** ** The hook: [useWebsocket] *)

(** [handleEvent]: the log append, then the [switch] on [event.type]. *)
Definition handleEvent (event : value) : Handler unit :=
  dispatch (addLog event) ;;
  type ← Get event "type";
  if strict_eq type "status_change" then
    status' ← payload event "status";
    dispatch (setStatus status') ;;
    test ← payload event "percent_complete";
    if ToBoolean test then
      percent_complete ← payload event "percent_complete";
      dispatch (setProgress percent_complete)
    else mret tt
  else if strict_eq type "agent_start" then
    agent_id ← payload event "agent_id";
    agent_name ← payload event "agent_name";
    role ← payload event "role";
    attempt (updateAgent agent_id
      {| Partial.id := None;
         Partial.name := Some agent_name;
         Partial.role := Some role;
         Partial.status := Some (JStr "running");
         Partial.thought := None;
         Partial.lastToolCall := None;
         Partial.output := None;
         Partial.logs := None |})
  else if strict_eq type "agent_thinking" then
    agent_id ← payload event "agent_id";
    thought ← payload event "thought";
    attempt (updateAgent agent_id
      {| Partial.id := None;
         Partial.name := None;
         Partial.role := None;
         Partial.status := Some (JStr "thinking");
         Partial.thought := Some thought;
         Partial.lastToolCall := None;
         Partial.output := None;
         Partial.logs := None |})
  else if strict_eq type "tool_call" then
    agent_id ← payload event "agent_id";
    tool_name ← payload event "tool_name";
    attempt (updateAgent agent_id
      {| Partial.id := None;
         Partial.name := None;
         Partial.role := None;
         Partial.status := None;
         Partial.thought := None;
         Partial.lastToolCall := Some tool_name;
         Partial.output := None;
         Partial.logs := None |})
  else if strict_eq type "tool_result" then
    test ← payload event "data_extracted";
    if ToBoolean test then
      data_extracted ← payload event "data_extracted";
      match Object_entries data_extracted with
      | Some entries =>
          forEach entries (λ key v, dispatch (updatePartialResults key v))
      | None => λ state, (Throw TypeError, state)
      end
    else mret tt
  else if strict_eq type "agent_complete" then
    agent_id ← payload event "agent_id";
    output ← payload event "output";
    attempt (updateAgent agent_id
      {| Partial.id := None;
         Partial.name := None;
         Partial.role := None;
         Partial.status := Some (JStr "success");
         Partial.thought := None;
         Partial.lastToolCall := None;
         Partial.output := Some output;
         Partial.logs := None |})
  else if strict_eq type "workflow_complete" then
    dispatch (setStatus (JStr "completed")) ;;
    results' ← payload event "results";
    dispatch (setResults results')
  else if strict_eq type "error" then
    test ← payload event "agent_id";
    if ToBoolean test then
      agent_id ← payload event "agent_id";
      attempt (updateAgent agent_id
        {| Partial.id := None;
           Partial.name := None;
           Partial.role := None;
           Partial.status := Some (JStr "failed");
           Partial.thought := None;
           Partial.lastToolCall := None;
           Partial.output := None;
           Partial.logs := None |})
    else mret tt
  else mret tt.

(** What the socket callbacks do besides dispatching store actions. *)
Inductive effect : Type :=
  | console_log (message : string)
  | console_error (message : string) (e : exn)
  | ws_close.

Definition onopen (state : WorkflowState) : WorkflowState * list effect :=
  (setConnected true state, [console_log "WebSocket connected"]).

Definition onclose (state : WorkflowState) : WorkflowState * list effect :=
  (setConnected false state, [console_log "WebSocket disconnected"]).

(** [onmessage].  The argument is the outcome of [JSON.parse(event.data)]:
    [None] when the built-in parser throws its [SyntaxError], [Some data]
    when it returns.  The [try] block covers the parse and the call of
    [handleEvent] alike. *)
Definition onmessage (parsed : option value) (state : WorkflowState)
    : WorkflowState * list effect :=
  let attempt : Handler unit :=
    data ← (λ st, (from_option Normal (Throw SyntaxError) parsed, st));
    handleEvent data in
  match attempt state with
  | (Normal _, state') => (state', [])
  | (Throw e, state') =>
      (state', [console_error "Failed to parse WebSocket message" e])
  end.

(** The clean-up returned by the effect: [ws.current?.close()]. *)
Definition cleanup (state : WorkflowState) : WorkflowState * list effect :=
  (state, [ws_close]).

(** The signals the transport delivers to the hook. *)
Inductive signal : Type :=
  | Open
  | Message (parsed : option value)
  | Close.

Definition deliver (sig : signal) (state : WorkflowState)
    : WorkflowState * list effect :=
  match sig with
  | Open => onopen state
  | Message parsed => onmessage parsed state
  | Close => onclose state
  end.

(** Delivering signals in arrival order; the effects accumulate. *)
Fixpoint session (sigs : list signal) (state : WorkflowState)
    : WorkflowState * list effect :=
  match sigs with
  | [] => (state, [])
  | sig :: rest =>
      let '(state', out) := deliver sig state in
      let '(state'', out') := session rest state' in
      (state'', (out ++ out')%list)
  end.

(** Folding a list of decoded envelopes, one [handleEvent] each, as the
    message handler does (a throw ends that envelope only). *)
Definition applyAll (events : list value) (state : WorkflowState) : WorkflowState :=
  foldl (λ st event, exec (handleEvent event) st) state events.

(** An envelope as the producer builds it. *)
Definition envelope (type : string) (fields : gmap string value) : value :=
  JObj {[ "id" := JStr "evt_1";
          "workflow_id" := JStr "workflow_1";
          "timestamp" := JStr "2025-01-01T00:00:00.000Z";
          "type" := JStr type;
          "payload" := JObj fields ]}.

(** The case labels of the [switch]. *)
Definition declared_types : list string :=
  ["status_change"; "agent_start"; "agent_thinking"; "tool_call";
   "tool_result"; "agent_complete"; "workflow_complete"; "error"].

(** ** Vocabulary of the properties *)

(** [state'] differs from [state] at most in [connected]. *)
Definition same_except_connected (state state' : WorkflowState) : Prop :=
  workflowId state' = workflowId state ∧
  status state' = status state ∧
  progress state' = progress state ∧
  agents state' = agents state ∧
  logs state' = logs state ∧
  results state' = results state ∧
  partialResults state' = partialResults state.

(** [state'] differs from [state] at most in [logs]. *)
Definition same_except_logs (state state' : WorkflowState) : Prop :=
  workflowId state' = workflowId state ∧
  status state' = status state ∧
  progress state' = progress state ∧
  agents state' = agents state ∧
  results state' = results state ∧
  partialResults state' = partialResults state ∧
  connected state' = connected state.

(** A value of the declared workflow status type. *)
Definition valid_status (v : value) : Prop :=
  ∃ s, s ∈ WorkflowStatus ∧ v = JStr s.

(** The store [updateAgent] leaves when [agentId] converts to [key]. *)
Definition filed (key : string) (agentId : value) (update : Partial.t)
    (state : WorkflowState) : WorkflowState :=
  mkState (workflowId state) (status state) (progress state)
          (<[key := spread (currentAgent key agentId state) update]>
             (agents state))
          (logs state) (results state) (partialResults state)
          (connected state).

(** Every agent record of the store has an empty [logs] list, or has no
    [logs] and is filed under the name of a member of [Object.prototype]. *)
Definition agent_logs_empty (state : WorkflowState) : Prop :=
  map_Forall (λ k agent, Agent.logs agent = Some [] ∨
                         (Agent.logs agent = None ∧ k ∈ Object_prototype))
             (agents state).

(** ** The components that read the store *)

(** [ExecutionPage]: the argument it hands to [useWebsocket],
    [workflowId ? `ws://localhost:8080/ws/workflow/${workflowId}` : null]. *)
Definition websocket_url (state : WorkflowState) : option string :=
  match workflowId state with
  | Some id =>
      if String.eqb id "" then None
      else Some ("ws://localhost:8080/ws/workflow/" +:+ id)
  | None => None
  end.

(** [useWebsocket]: the guard [if (!url) return] of the effect; [true] when
    the effect goes on to create the socket. *)
Definition creates_socket (url : option string) : bool :=
  match url with
  | Some u => negb (String.eqb u "")
  | None => false
  end.

(** [ExecutionPage]: the test of its effect, [status === 'completed'], under
    which it schedules [navigate('/results')]. *)
Definition navigates_to_results (state : WorkflowState) : bool :=
  strict_eq (status state) "completed".

(** [ExecutionPage]: [Object.keys(partialResults).length === 0], under which
    the findings box reads "Waiting for data...". *)
Definition waiting_for_data (state : WorkflowState) : bool :=
  bool_decide (length (map_to_list (partialResults state)).*1 = 0).

(** [ResultsPage]: the value it prints, [results || partialResults]. *)
Definition key_findings (state : WorkflowState) : value :=
  if ToBoolean (results state) then results state
  else JObj (partialResults state).

(** [LogsPanel]: one row per log entry.  A row is described by what the
    callback computes from the entry: the primitive value [new Date(...)]
    makes its date of, the class of the text and the argument of
    [JSON.stringify(...)]. *)
Record LogRow : Type := mkRow {
  row_time : value;
  row_class : string;
  row_text : value
}.

(** The callback of [logs.map]; [None] is a [TypeError]: that of reading a
    property of [null] or [undefined], or that of [new Date(log.timestamp)]
    when the timestamp does not convert to a primitive.  (Formatting the
    date and printing the payload do not throw.) *)
Definition LogsPanel_row (log : value) : option LogRow :=
  argument ← read log "timestamp";
  timestamp ← ToPrimitive argument;
  type ← read log "type";
  let class :=
    if strict_eq type "error" then "text-error"
    else if strict_eq type "success" then "text-success"
    else "text-white" in
  text ← read log "payload";
  Some (mkRow timestamp class text).

(** [logs.map(...)]: the rows, or the exception of the first failing row. *)
Definition LogsPanel_rows (state : WorkflowState) : option (list LogRow) :=
  mapM LogsPanel_row (logs state).

(** [PromptBuilder.handleGenerate], given the value of [Date.now()]: the
    only store action it calls is [setWorkflowId]. *)
Definition handleGenerate (now : Z) (state : WorkflowState) : WorkflowState :=
  setWorkflowId ("workflow_" +:+ pretty now) state.

(** ** More vocabulary *)

(** The decoded values a sequence of signals hands to [handleEvent]. *)
Definition received (sigs : list signal) : list value :=
  omap (λ sig, match sig with
               | Message (Some data) => Some data
               | _ => None
               end) sigs.

(** Every agent record that has an [id] is filed under the key that [id]
    converts to, and the records without [id] are filed under names of
    members of [Object.prototype]. *)
Definition keyed_by_id (state : WorkflowState) : Prop :=
  map_Forall (λ k agent,
                match Agent.id agent with
                | Some id => ToPropertyKey id = Some k
                | None => k ∈ Object_prototype
                end) (agents state).

(** [null] or [undefined]. *)
Definition nullish (v : value) : Prop := v = JNull ∨ v = JUndefined.

(** The event types whose case calls [updateAgent]. *)
Definition agent_types : list string :=
  ["agent_start"; "agent_thinking"; "tool_call"; "agent_complete"; "error"].

(** * Properties *)

(** ** Running a handler symbolically *)

Lemma strict_eq_true v lit : strict_eq v lit = true → v = JStr lit.
Proof.
  destruct v; simpl; try discriminate.
  intros H. apply bool_decide_eq_true in H. by subst.
Qed.

Lemma strict_eq_false v lit : strict_eq v lit = false → v ≠ JStr lit.
Proof.
  intros H ->. simpl in H. by rewrite bool_decide_eq_false in H.
Qed.

Lemma strict_eq_refl lit : strict_eq (JStr lit) lit = true.
Proof. simpl. by apply bool_decide_eq_true. Qed.

Lemma read_object m k : read (JObj m) k = Some (default JUndefined (m !! k)).
Proof. reflexivity. Qed.

(** [Object.entries] does not throw on a truthy value. *)
Lemma truthy_has_entries v :
  ToBoolean v = true → Object_entries v = None → False.
Proof. by destruct v. Qed.

(** The loop over the extracted entries only touches [partialResults], where
    it inserts the entries one after the other. *)
Lemma forEach_updatePartialResults entries state :
  forEach entries (λ key v, dispatch (updatePartialResults key v)) state =
  (Normal tt,
   mkState (workflowId state) (status state) (progress state) (agents state)
     (logs state) (results state)
     (foldl (λ m kv, <[kv.1 := kv.2]> m) (partialResults state) entries)
     (connected state)).
Proof.
  revert state. induction entries as [|[key v] rest IH]; intros state.
  - by destruct state.
  - simpl. unfold mbind, Handler_bind, dispatch. simpl. by rewrite IH.
Qed.

(** Inserting bindings with distinct keys one by one: the listed bindings
    win, the others stay. *)
Lemma foldl_insert_lookup (l : list (string * value)) (m : gmap string value) k :
  NoDup l.*1 →
  foldl (λ m kv, <[kv.1 := kv.2]> m) m l !! k
  = (list_to_map l : gmap string value) !! k ∪ m !! k.
Proof.
  revert m. induction l as [|[k1 v1] rest IH]; intros m Hnd.
  - simpl. rewrite lookup_empty. by destruct (m !! k).
  - simpl in *. apply NoDup_cons in Hnd as [Hk1 Hnd].
    rewrite IH by done. destruct (decide (k1 = k)) as [->|Hne].
    + rewrite !lookup_insert_eq.
      rewrite (not_elem_of_list_to_map_1 (M := gmap string) _ k) by done.
      by destruct (m !! k).
    + by rewrite !lookup_insert_ne.
Qed.

Lemma foldl_insert_map_to_list (d m : gmap string value) k :
  foldl (λ m kv, <[kv.1 := kv.2]> m) m (map_to_list d) !! k = d !! k ∪ m !! k.
Proof.
  rewrite foldl_insert_lookup by apply NoDup_fst_map_to_list.
  by rewrite list_to_map_to_list.
Qed.

(** [updateAgent] files its record under the key of [agentId], or throws
    when there is no such key. *)
Lemma updateAgent_Some agentId update state key :
  ToPropertyKey agentId = Some key →
  updateAgent agentId update state = Some (filed key agentId update state).
Proof. intros Hkey. unfold updateAgent. by rewrite Hkey. Qed.

Lemma updateAgent_None agentId update state :
  ToPropertyKey agentId = None → updateAgent agentId update state = None.
Proof. intros Hkey. unfold updateAgent. by rewrite Hkey. Qed.

Ltac unfold_handler :=
  unfold exec, thrown, handleEvent, payload, Get, dispatch, attempt,
    mbind, mret, Handler_bind, Handler_ret in *.

Ltac reduce_handler :=
  cbv beta iota zeta delta [fst snd]; cbn [from_option id].

(** One step, in evaluation order: the pending comparison or test first,
    then the next property read. *)
Ltac handler_case :=
  match goal with
  | |- context [strict_eq (JStr ?s) ?k] =>
      let b := eval vm_compute in (strict_eq (JStr s) k) in
      lazymatch b with
      | true => change (strict_eq (JStr s) k) with true
      | false => change (strict_eq (JStr s) k) with false
      end
  | |- context [strict_eq ?v ?k] => destruct (strict_eq v k) eqn:?
  | H : ToBoolean ?v = _ |- context [ToBoolean ?v] => rewrite H
  | |- context [ToBoolean ?v] =>
      let b := eval cbv in (ToBoolean v) in
      lazymatch b with
      | true => change (ToBoolean v) with true
      | false => change (ToBoolean v) with false
      end
  | |- context [ToBoolean ?v] => destruct (ToBoolean v) eqn:?
  | H : Object_entries ?v = _ |- context [Object_entries ?v] => rewrite H
  | |- context [Object_entries (JObj ?m)] =>
      change (Object_entries (JObj m)) with (Some (map_to_list m))
  | |- context [Object_entries ?v] => destruct (Object_entries v) eqn:?
  | |- context [forEach ?l ?f ?s] =>
      change (forEach l f s)
        with (forEach l (λ key v, dispatch (updatePartialResults key v)) s);
      rewrite (forEach_updatePartialResults l s)
  | H : ToPropertyKey ?a = Some ?key |- context [updateAgent ?a ?u ?s] =>
      rewrite (updateAgent_Some a u s key H)
  | H : ToPropertyKey ?a = None |- context [updateAgent ?a ?u ?s] =>
      rewrite (updateAgent_None a u s H)
  | |- context [updateAgent ?a ?u ?s] =>
      let r := eval cbv in (ToPropertyKey a) in
      lazymatch r with
      | Some ?key => rewrite (updateAgent_Some a u s key eq_refl)
      | None => rewrite (updateAgent_None a u s eq_refl)
      end
  | |- context [updateAgent ?a ?u ?s] => destruct (ToPropertyKey a) eqn:?
  | H : read ?v ?k = _ |- context [read ?v ?k] => rewrite H
  | H : ?m !! ?k = _ |- context [read (JObj ?m) ?k] =>
      change (read (JObj m) k) with (Some (default JUndefined (m !! k)));
      rewrite H
  | |- context [read (JObj ?m) ?k] =>
      change (read (JObj m) k) with (Some (default JUndefined (m !! k)))
  | |- context [read JNull ?k] => change (read JNull k) with (@None value)
  | |- context [read JUndefined ?k] =>
      change (read JUndefined k) with (@None value)
  | |- context [read ?v ?k] => destruct (read v k) eqn:?
  end.

Ltac run_handler :=
  unfold_handler; reduce_handler; repeat (handler_case; reduce_handler).

(** ** Frame lemmas shared by the claims *)

(** Every call of [handleEvent] appends its argument to the log, whatever
    the argument is and however the call ends. *)
Lemma handleEvent_logs event state :
  logs (exec (handleEvent event) state) = (logs state ++ [event])%list.
Proof. run_handler; reflexivity. Qed.

(** No case of the [switch] touches [connected] or [workflowId]. *)
Lemma handleEvent_connected event state :
  connected (exec (handleEvent event) state) = connected state.
Proof. run_handler; reflexivity. Qed.

Lemma handleEvent_workflowId event state :
  workflowId (exec (handleEvent event) state) = workflowId state.
Proof. run_handler; reflexivity. Qed.

(** A call of [handleEvent] changes the store. *)
Lemma handleEvent_changes_store event state :
  exec (handleEvent event) state ≠ state.
Proof.
  intros Heq. pose proof (handleEvent_logs event state) as Hlogs.
  rewrite Heq in Hlogs. apply (f_equal length) in Hlogs.
  rewrite length_app in Hlogs. simpl in Hlogs. lia.
Qed.

(** ** Unknown event types *)

(** C3. An envelope whose [type] is none of the declared case labels leaves
    the store as it was except for the log, to which the envelope is
    appended; and the append happens for every value handed to the reducer,
    whatever its type. *)
Theorem unknown_type_only_appends_log (event : value) (state : WorkflowState) :
  logs (exec (handleEvent event) state) = (logs state ++ [event])%list ∧
  ((∀ t, t ∈ declared_types → read event "type" ≠ Some (JStr t)) →
   same_except_logs state (exec (handleEvent event) state)).
Proof.
  split; [apply handleEvent_logs|]. intros Hunknown.
  unfold same_except_logs.
  destruct (read event "type") as [v|] eqn:Htype.
  - assert (∀ lit, strict_eq v lit = true → lit ∈ declared_types → False)
      as Hcase.
    { intros lit Hlit Hin. apply strict_eq_true in Hlit. subst v.
      by apply (Hunknown lit). }
    run_handler;
      try (exfalso; eapply Hcase; [eassumption|];
           unfold declared_types; repeat constructor);
      by repeat split.
  - run_handler. by repeat split.
Qed.

(** The theorem at an envelope of type [heartbeat]. *)
Lemma unknown_type_only_appends_log_witness :
  let event := envelope "heartbeat" {[ "seq" := JNum (Number 7 I) ]} in
  let state' := exec (handleEvent event) initial in
  (∀ t, t ∈ declared_types → read event "type" ≠ Some (JStr t)) ∧
  logs state' = [event] ∧ status state' = JStr "idle" ∧
  progress state' = JNum (Number 0 I) ∧ agents state' = ∅ ∧ results state' = JNull ∧
  partialResults state' = ∅ ∧ connected state' = false.
Proof.
  intros event state'.
  assert (∀ t, t ∈ declared_types → read event "type" ≠ Some (JStr t))
    as Hunknown.
  { intros t Hin Heq. vm_compute in Heq. injection Heq as <-.
    unfold declared_types in Hin. rewrite !elem_of_cons, elem_of_nil in Hin.
    intuition discriminate. }
  split; [exact Hunknown|].
  destruct (unknown_type_only_appends_log event initial) as [Hlog Hframe].
  split; [exact Hlog|].
  destruct (Hframe Hunknown) as (_ & ? & ? & ? & ? & ? & ?). by repeat split.
Defined.

(** ** Transport open and close *)

Lemma setConnected_frame b state :
  connected (setConnected b state) = b ∧
  same_except_connected state (setConnected b state).
Proof. by repeat split. Qed.

(** C8. Opening the transport sets [connected] to true and closing it sets
    [connected] to false; neither changes any other field of the store,
    whatever signals were delivered before. *)
Theorem transport_signals_only_flip_connected
    (sigs : list signal) (state0 : WorkflowState) :
  let state := (session sigs state0).1 in
  (connected (onopen state).1 = true ∧
   same_except_connected state (onopen state).1) ∧
  (connected (onclose state).1 = false ∧
   same_except_connected state (onclose state).1).
Proof. intros state. split; apply setConnected_frame. Qed.

(** ** Status changes *)

(** C9. A [status_change] envelope puts the payload's [status] into the
    store as it is: any value, [undefined] when the field is missing; so a
    status of the declared type can be followed by one outside it. *)
Theorem status_change_status_unvalidated :
  (∀ (event : value) (p : gmap string value) (state : WorkflowState),
     read event "type" = Some (JStr "status_change") →
     read event "payload" = Some (JObj p) →
     status (exec (handleEvent event) state)
     = default JUndefined (p !! "status")) ∧
  (∃ (event : value) (state : WorkflowState),
     valid_status (status state) ∧
     ¬ valid_status (status (exec (handleEvent event) state))).
Proof.
  split.
  - intros event p state Htype Hpayload. run_handler; reflexivity.
  - exists (envelope "status_change" {[ "status" := JStr "bogus" ]}), initial.
    split.
    + exists "idle". split; [|reflexivity]. unfold WorkflowStatus.
      by repeat constructor.
    + intros (s & Hin & Heq). vm_compute in Heq. injection Heq as <-.
      unfold WorkflowStatus in Hin.
      rewrite !elem_of_cons, elem_of_nil in Hin. intuition discriminate.
Qed.

(** The first part at an envelope whose status is not a declared one, and
    at one without a status. *)
Lemma status_change_status_unvalidated_witness :
  status (exec (handleEvent
     (envelope "status_change" {[ "status" := JStr "bogus" ]})) initial)
  = JStr "bogus" ∧
  status (exec (handleEvent (envelope "status_change" ∅)) initial)
  = JUndefined.
Proof.
  split.
  - etrans;
      [apply (proj1 status_change_status_unvalidated
                (envelope "status_change" {[ "status" := JStr "bogus" ]})
                {[ "status" := JStr "bogus" ]} initial); reflexivity
      |reflexivity].
  - etrans;
      [apply (proj1 status_change_status_unvalidated
                (envelope "status_change" ∅) ∅ initial); reflexivity
      |reflexivity].
Defined.

(** When the payload's [percent_complete] is truthy it becomes the progress. *)
Lemma status_change_truthy_percent
    (event : value) (p : gmap string value) (pc : value) (state : WorkflowState) :
  read event "type" = Some (JStr "status_change") →
  read event "payload" = Some (JObj p) →
  p !! "percent_complete" = Some pc →
  ToBoolean pc = true →
  status (exec (handleEvent event) state) = default JUndefined (p !! "status") ∧
  progress (exec (handleEvent event) state) = pc.
Proof. intros Htype Hpayload Hpc Htruthy. by run_handler. Qed.

(** Scenario A of the design document. *)
Example scenario_A :
  let state' :=
    exec (handleEvent (envelope "status_change"
            {[ "status" := JStr "running"; "percent_complete" := JNum (Number 25 I) ]}))
         initial in
  status state' = JStr "running" ∧ progress state' = JNum (Number 25 I).
Proof. vm_compute. done. Qed.

(** C1. The design asks that a [status_change] sets the status and, whenever
    [percent_complete] is present, the progress, a value of 0 included.  The
    handler guards the progress update by the truthiness of the field, so
    with [percent_complete] present and equal to 0 the status is set and
    the progress keeps whatever value it had. *)
Theorem status_change_zero_percent_keeps_progress
    (event : value) (p : gmap string value) (state : WorkflowState) :
  read event "type" = Some (JStr "status_change") →
  read event "payload" = Some (JObj p) →
  p !! "percent_complete" = Some (JNum (Number 0 I)) →
  status (exec (handleEvent event) state) = default JUndefined (p !! "status") ∧
  progress (exec (handleEvent event) state) = progress state.
Proof. intros Htype Hpayload Hpc. by run_handler. Qed.

(** The first event of the development server,
    [status_change{status: "initiated", percent_complete: 0}], arriving at a
    store whose progress is 75: the progress stays 75. *)
Lemma status_change_zero_percent_keeps_progress_witness :
  let state :=
    applyAll [envelope "status_change"
                {[ "status" := JStr "running"; "percent_complete" := JNum (Number 75 I) ]}]
             initial in
  let event :=
    envelope "status_change"
      {[ "status" := JStr "initiated"; "percent_complete" := JNum (Number 0 I) ]} in
  progress state = JNum (Number 75 I) ∧
  status (exec (handleEvent event) state) = JStr "initiated" ∧
  progress (exec (handleEvent event) state) = JNum (Number 75 I).
Proof.
  intros state event. split; [reflexivity|].
  destruct (status_change_zero_percent_keeps_progress event
              {[ "status" := JStr "initiated"; "percent_complete" := JNum (Number 0 I) ]}
              state) as [Hstatus Hprogress]; [reflexivity..|].
  split; [etrans; [exact Hstatus|reflexivity]
         |etrans; [exact Hprogress|reflexivity]].
Defined.

(** ** Partial results *)

(** C5. A [tool_result] whose payload carries a [data_extracted] mapping
    writes each of its bindings into [partialResults], replacing what the
    key held before and leaving the other keys alone; without a
    [data_extracted] field [partialResults] is unchanged. *)
Theorem tool_result_overwrites_partial_results
    (event : value) (p : gmap string value) (state : WorkflowState) :
  read event "type" = Some (JStr "tool_result") →
  read event "payload" = Some (JObj p) →
  (∀ d : gmap string value,
     p !! "data_extracted" = Some (JObj d) →
     ∀ k, partialResults (exec (handleEvent event) state) !! k
          = match d !! k with
            | Some v => Some v
            | None => partialResults state !! k
            end) ∧
  (p !! "data_extracted" = None →
   partialResults (exec (handleEvent event) state) = partialResults state).
Proof.
  intros Htype Hpayload. split.
  - intros d Hd k. run_handler.
    etrans; [exact (foldl_insert_map_to_list d (partialResults state) k)|].
    by destruct (d !! k), (partialResults state !! k).
  - intros Hd. by run_handler.
Qed.

(** Scenario D: [topic] is written as "A", then as "B"; a key the second
    envelope does not mention keeps its value. *)
Lemma tool_result_overwrites_partial_results_witness :
  let first :=
    envelope "tool_result"
      {[ "agent_id" := JStr "a1";
         "data_extracted" := JObj {[ "topic" := JStr "A"; "lang" := JStr "en" ]} ]} in
  let second :=
    envelope "tool_result"
      {[ "agent_id" := JStr "a1";
         "data_extracted" := JObj {[ "topic" := JStr "B" ]} ]} in
  let state := exec (handleEvent first) initial in
  partialResults state !! "topic" = Some (JStr "A") ∧
  partialResults (exec (handleEvent second) state) !! "topic" = Some (JStr "B") ∧
  partialResults (exec (handleEvent second) state) !! "lang" = Some (JStr "en").
Proof.
  intros first second state.
  destruct (tool_result_overwrites_partial_results second
              {[ "agent_id" := JStr "a1";
                 "data_extracted" := JObj {[ "topic" := JStr "B" ]} ]}
              state) as [Hwrite _]; [reflexivity..|].
  specialize (Hwrite {[ "topic" := JStr "B" ]} eq_refl).
  split; [reflexivity|].
  split; [etrans; [apply Hwrite|reflexivity]
         |etrans; [apply Hwrite|reflexivity]].
Defined.

(** ** Workflow completion *)

(** C2, as the code has it. A [workflow_complete] envelope sets the status
    to "completed" and [results] to the payload's [results]; an envelope of
    any other type leaves [results] as it is, set or not. *)
Theorem workflow_complete_sets_results (event : value) (state : WorkflowState) :
  (∀ p : gmap string value,
     read event "type" = Some (JStr "workflow_complete") →
     read event "payload" = Some (JObj p) →
     status (exec (handleEvent event) state) = JStr "completed" ∧
     results (exec (handleEvent event) state)
     = default JUndefined (p !! "results")) ∧
  (read event "type" ≠ Some (JStr "workflow_complete") →
   results (exec (handleEvent event) state) = results state).
Proof.
  split.
  - intros p Htype Hpayload. by run_handler.
  - intros Hother. destruct (read event "type") as [v|] eqn:Htype.
    + assert (strict_eq v "workflow_complete" = false) as Hcase.
      { destruct (strict_eq v "workflow_complete") eqn:Heq; [|done].
        apply strict_eq_true in Heq. by subst v. }
      run_handler; reflexivity || congruence.
    + by run_handler.
Qed.

(** The theorem at the completion envelope of Scenario E, and at a later
    envelope of another type. *)
Lemma workflow_complete_sets_results_witness :
  let done_ := envelope "workflow_complete"
                 {[ "results" := JObj {[ "summary" := JStr "done" ]} ]} in
  let later := envelope "status_change" {[ "status" := JStr "paused" ]} in
  let state := exec (handleEvent done_) initial in
  status state = JStr "completed" ∧
  results state = JObj {[ "summary" := JStr "done" ]} ∧
  results (exec (handleEvent later) state) = JObj {[ "summary" := JStr "done" ]}.
Proof.
  intros done_ later state.
  destruct (proj1 (workflow_complete_sets_results done_ initial)
              {[ "results" := JObj {[ "summary" := JStr "done" ]} ]})
    as [Hstatus Hresults]; [reflexivity..|].
  split; [exact Hstatus|]. split; [etrans; [exact Hresults|reflexivity]|].
  etrans; [apply (proj2 (workflow_complete_sets_results later state))
          |etrans; [exact Hresults|reflexivity]].
  intros Heq. vm_compute in Heq. discriminate Heq.
Defined.

(** C2 as stated fails: after a first [workflow_complete] has set [results],
    a second [workflow_complete] with another payload replaces them. *)
Lemma results_overwritten_by_second_completion :
  let first := envelope "workflow_complete"
                 {[ "results" := JObj {[ "summary" := JStr "done" ]} ]} in
  let second := envelope "workflow_complete"
                  {[ "results" := JObj {[ "summary" := JStr "redone" ]} ]} in
  let state := exec (handleEvent first) initial in
  results state = JObj {[ "summary" := JStr "done" ]} ∧
  results state ≠ JNull ∧
  results (exec (handleEvent second) state) = JObj {[ "summary" := JStr "redone" ]} ∧
  results (exec (handleEvent second) state) ≠ results state.
Proof.
  intros first second state.
  assert (results state = JObj {[ "summary" := JStr "done" ]}) as H1
    by reflexivity.
  assert (results (exec (handleEvent second) state)
          = JObj {[ "summary" := JStr "redone" ]}) as H2 by reflexivity.
  split; [exact H1|]. split; [by rewrite H1|]. split; [exact H2|].
  rewrite H1, H2. intros Heq.
  apply (f_equal (λ v, read v "summary")) in Heq.
  vm_compute in Heq. discriminate Heq.
Qed.

(** ** Malformed messages *)

(** C6, as the code has it. A message on which [JSON.parse] throws is
    discarded after the failure is logged: the store is not changed in any
    field, [handleEvent] is not called (a call would have changed the
    store), and the socket is not closed. *)
Theorem unparsable_message_is_discarded (state : WorkflowState) :
  ((onmessage None state).1 = state) ∧
  ((onmessage None state).2
   = [console_error "Failed to parse WebSocket message" SyntaxError]) ∧
  (ws_close ∉ (onmessage None state).2) ∧
  (∀ data, (onmessage None state).1 ≠ exec (handleEvent data) state).
Proof.
  split; [reflexivity|]. split; [reflexivity|]. split.
  - simpl. intros Hin. apply list_elem_of_singleton in Hin. discriminate Hin.
  - intros data Heq. simpl in Heq. symmetry in Heq.
    by apply handleEvent_changes_store in Heq.
Qed.

(** C6 as stated fails for a message that is valid JSON but no envelope: on
    the text [null] the parser returns [null], [handleEvent] appends it to
    the log and then throws on [event.type]; the failure is logged and the
    log of the store has grown. *)
Lemma non_envelope_message_reaches_log :
  ((onmessage (Some JNull) initial).2
   = [console_error "Failed to parse WebSocket message" TypeError]) ∧
  logs (onmessage (Some JNull) initial).1 = [JNull] ∧
  (onmessage (Some JNull) initial).1 ≠ initial.
Proof.
  split; [reflexivity|]. split; [reflexivity|].
  intros Heq. apply (f_equal logs) in Heq. discriminate Heq.
Qed.

(** ** Agent records *)

Lemma filed_lookup key agentId update state :
  agents (filed key agentId update state) !! key
  = Some (spread (currentAgent key agentId state) update).
Proof. unfold filed. simpl. apply lookup_insert_eq. Qed.

Lemma filed_lookup_ne key agentId update state k :
  k ≠ key →
  agents (filed key agentId update state) !! k = agents state !! k.
Proof. intros Hne. unfold filed. simpl. by apply lookup_insert_ne. Qed.

(** C7, as the code has it. An [error] envelope never changes the workflow
    status.  When the payload's [agent_id] is present, truthy and converts
    to a property key, the status of the agent filed under that key becomes
    "failed" and the other agents are untouched; when it is absent, or
    present but falsy (the empty string, 0, [null], [false]), the only
    effect is the log append. *)
Theorem error_marks_agent_failed
    (event : value) (p : gmap string value) (state : WorkflowState) :
  read event "type" = Some (JStr "error") →
  read event "payload" = Some (JObj p) →
  status (exec (handleEvent event) state) = status state ∧
  (∀ aid key, p !! "agent_id" = Some aid → ToBoolean aid = true →
     ToPropertyKey aid = Some key →
     agents (exec (handleEvent event) state) !! key ≫= Agent.status
     = Some (JStr "failed") ∧
     ∀ k, k ≠ key →
          agents (exec (handleEvent event) state) !! k = agents state !! k) ∧
  (p !! "agent_id" = None → exec (handleEvent event) state = addLog event state) ∧
  (∀ aid, p !! "agent_id" = Some aid → ToBoolean aid = false →
     exec (handleEvent event) state = addLog event state).
Proof.
  intros Htype Hpayload. split; [|split; [|split]].
  - run_handler; reflexivity.
  - intros aid key Haid Htruthy Hkey. run_handler. split.
    + by rewrite filed_lookup.
    + intros k Hne.
      by etrans; [apply (filed_lookup_ne key aid _ (addLog event state))|].
  - intros Habsent. by run_handler.
  - intros aid Haid Hfalsy. by run_handler.
Qed.

(** The theorem at an error for the running agent [a1]. *)
Lemma error_marks_agent_failed_witness :
  let start := envelope "agent_start"
                 {[ "agent_id" := JStr "a1"; "agent_name" := JStr "ResearchAgent";
                    "role" := JStr "Researcher" ]} in
  let failure := envelope "error" {[ "agent_id" := JStr "a1" ]} in
  let state := exec (handleEvent start) (setStatus (JStr "running") initial) in
  agents state !! "a1" ≫= Agent.status = Some (JStr "running") ∧
  status (exec (handleEvent failure) state) = JStr "running" ∧
  agents (exec (handleEvent failure) state) !! "a1" ≫= Agent.status
  = Some (JStr "failed").
Proof.
  intros start failure state. split; [reflexivity|].
  destruct (error_marks_agent_failed failure {[ "agent_id" := JStr "a1" ]} state)
    as (Hstatus & Hfailed & _); [reflexivity..|].
  split; [etrans; [exact Hstatus|reflexivity]|].
  apply (Hfailed (JStr "a1") "a1"); reflexivity.
Defined.

(** C7 as stated fails when the [agent_id] is present but falsy: the agent
    whose id is the empty string is running, an [error] envelope names it,
    and it is still running afterwards. *)
Lemma error_with_empty_agent_id_marks_nothing :
  let start := envelope "agent_start"
                 {[ "agent_id" := JStr ""; "agent_name" := JStr "ResearchAgent";
                    "role" := JStr "Researcher" ]} in
  let failure := envelope "error" {[ "agent_id" := JStr "" ]} in
  let state := exec (handleEvent start) initial in
  agents state !! "" ≫= Agent.status = Some (JStr "running") ∧
  agents (exec (handleEvent failure) state) !! "" ≫= Agent.status
  = Some (JStr "running") ∧
  agents (exec (handleEvent failure) state) !! "" ≫= Agent.status
  ≠ Some (JStr "failed").
Proof.
  intros start failure state.
  assert (agents (exec (handleEvent failure) state) !! "" ≫= Agent.status
          = Some (JStr "running")) as H by reflexivity.
  split; [reflexivity|]. split; [exact H|]. rewrite H. discriminate.
Qed.

(** C4, as the code has it. An [agent_start], [agent_thinking], [tool_call]
    or [agent_complete] envelope, or an [error] envelope whose [agent_id] is
    truthy, that names an agent the store does not have yet, by an id that
    converts to a property key other than the names of the members of
    [Object.prototype], is not rejected: the store gets a record for that
    id, built from the placeholder (name "Unknown Agent", role "Worker",
    status "idle", no thought, tool call or output, empty logs) with the
    fields of the event written over it. *)
Theorem unseen_agent_is_created
    (event : value) (p : gmap string value) (aid : value) (key : string)
    (state : WorkflowState) :
  read event "payload" = Some (JObj p) →
  p !! "agent_id" = Some aid →
  ToPropertyKey aid = Some key →
  key ∉ Object_prototype →
  agents state !! key = None →
  thrown (handleEvent event) state = None ∧
  (read event "type" = Some (JStr "agent_start") →
   agents (exec (handleEvent event) state) !! key
   = Some {| Agent.id := Some aid;
             Agent.name := Some (default JUndefined (p !! "agent_name"));
             Agent.role := Some (default JUndefined (p !! "role"));
             Agent.status := Some (JStr "running");
             Agent.thought := None;
             Agent.lastToolCall := None;
             Agent.output := None;
             Agent.logs := Some [] |}) ∧
  (read event "type" = Some (JStr "agent_thinking") →
   agents (exec (handleEvent event) state) !! key
   = Some {| Agent.id := Some aid;
             Agent.name := Some (JStr "Unknown Agent");
             Agent.role := Some (JStr "Worker");
             Agent.status := Some (JStr "thinking");
             Agent.thought := Some (default JUndefined (p !! "thought"));
             Agent.lastToolCall := None;
             Agent.output := None;
             Agent.logs := Some [] |}) ∧
  (read event "type" = Some (JStr "tool_call") →
   agents (exec (handleEvent event) state) !! key
   = Some {| Agent.id := Some aid;
             Agent.name := Some (JStr "Unknown Agent");
             Agent.role := Some (JStr "Worker");
             Agent.status := Some (JStr "idle");
             Agent.thought := None;
             Agent.lastToolCall := Some (default JUndefined (p !! "tool_name"));
             Agent.output := None;
             Agent.logs := Some [] |}) ∧
  (read event "type" = Some (JStr "agent_complete") →
   agents (exec (handleEvent event) state) !! key
   = Some {| Agent.id := Some aid;
             Agent.name := Some (JStr "Unknown Agent");
             Agent.role := Some (JStr "Worker");
             Agent.status := Some (JStr "success");
             Agent.thought := None;
             Agent.lastToolCall := None;
             Agent.output := Some (default JUndefined (p !! "output"));
             Agent.logs := Some [] |}) ∧
  (read event "type" = Some (JStr "error") → ToBoolean aid = true →
   agents (exec (handleEvent event) state) !! key
   = Some {| Agent.id := Some aid;
             Agent.name := Some (JStr "Unknown Agent");
             Agent.role := Some (JStr "Worker");
             Agent.status := Some (JStr "failed");
             Agent.thought := None;
             Agent.lastToolCall := None;
             Agent.output := None;
             Agent.logs := Some [] |}).
Proof.
  intros Hpayload Haid Hkey Hproto Hunseen.
  assert (∀ update,
            agents (filed key aid update (addLog event state)) !! key
            = Some (spread (placeholder aid) update)) as Hcreate.
  { intros update. rewrite filed_lookup. unfold currentAgent. simpl.
    by rewrite Hunseen, bool_decide_eq_false_2. }
  split; [|repeat split].
  - destruct (read event "type") as [v|] eqn:Htype.
    + run_handler; try reflexivity.
      exfalso. by eapply truthy_has_entries.
    + exfalso. destruct event; discriminate.
  - intros Htype. run_handler. by rewrite Hcreate.
  - intros Htype. run_handler. by rewrite Hcreate.
  - intros Htype. run_handler. by rewrite Hcreate.
  - intros Htype. run_handler. by rewrite Hcreate.
  - intros Htype Htruthy. run_handler. by rewrite Hcreate.
Qed.

(** The theorem at a [tool_call] naming the unseen agent [a7]. *)
Lemma unseen_agent_is_created_witness :
  let event := envelope "tool_call"
                 {[ "agent_id" := JStr "a7"; "tool_name" := JStr "search_web" ]} in
  ("a7" ∉ Object_prototype) ∧
  agents initial !! "a7" = None ∧
  thrown (handleEvent event) initial = None ∧
  agents (exec (handleEvent event) initial) !! "a7"
  = Some {| Agent.id := Some (JStr "a7");
            Agent.name := Some (JStr "Unknown Agent");
            Agent.role := Some (JStr "Worker");
            Agent.status := Some (JStr "idle");
            Agent.thought := None;
            Agent.lastToolCall := Some (JStr "search_web");
            Agent.output := None;
            Agent.logs := Some [] |}.
Proof.
  intros event.
  assert ("a7" ∉ Object_prototype) as Hproto.
  { unfold Object_prototype. rewrite !elem_of_cons, elem_of_nil.
    intros H. repeat (destruct H as [H|H]; [discriminate H|]). exact H. }
  split; [exact Hproto|]. split; [reflexivity|].
  destruct (unseen_agent_is_created event
              {[ "agent_id" := JStr "a7"; "tool_name" := JStr "search_web" ]}
              (JStr "a7") "a7" initial)
    as (Hok & _ & _ & Htool & _); [reflexivity|reflexivity|reflexivity|exact Hproto|reflexivity|].
  split; [exact Hok|]. etrans; [apply Htool; reflexivity|reflexivity].
Defined.

(** C4 as stated fails for an [error] envelope whose [agent_id] is present
    but falsy: the store has no agent with the empty id, the envelope names
    it, and no record is created. *)
Lemma error_with_empty_agent_id_creates_nothing :
  let failure := envelope "error" {[ "agent_id" := JStr "" ]} in
  read failure "payload" = Some (JObj {[ "agent_id" := JStr "" ]}) ∧
  ToPropertyKey (JStr "") = Some "" ∧
  agents initial !! "" = None ∧
  agents (exec (handleEvent failure) initial) !! "" = None.
Proof. by repeat split. Qed.

(** Scenario B of the design document. *)
Example scenario_B :
  let state :=
    applyAll
      [envelope "agent_start"
         {[ "agent_id" := JStr "a1"; "agent_name" := JStr "ResearchAgent";
            "role" := JStr "Researcher" ]};
       envelope "agent_thinking"
         {[ "agent_id" := JStr "a1"; "thought" := JStr "Searching..." ]}]
      initial in
  agents state !! "a1"
  = Some {| Agent.id := Some (JStr "a1");
            Agent.name := Some (JStr "ResearchAgent");
            Agent.role := Some (JStr "Researcher");
            Agent.status := Some (JStr "thinking");
            Agent.thought := Some (JStr "Searching...");
            Agent.lastToolCall := None;
            Agent.output := None;
            Agent.logs := Some [] |}.
Proof. reflexivity. Qed.

(** ** The [logs] field of agent records *)

(** C10. The design asks that every agent record has a [logs] list that is
    created empty and never written.  [updateAgent] looks the agent up
    through the prototype chain, so a first reference to an agent whose id
    converts to the name of a member of [Object.prototype] finds that
    member instead of nothing, skips the placeholder, and files a record
    that has the fields of the event only: no [logs], and no [id], [name]
    or [role] either unless the event carries them. *)
Theorem prototype_named_agent_has_no_logs
    (event : value) (p : gmap string value) (aid : value) (key t : string)
    (state : WorkflowState) :
  t ∈ agent_types →
  read event "type" = Some (JStr t) →
  read event "payload" = Some (JObj p) →
  p !! "agent_id" = Some aid →
  ToBoolean aid = true →
  ToPropertyKey aid = Some key →
  key ∈ Object_prototype →
  agents state !! key = None →
  ∃ agent,
    agents (exec (handleEvent event) state) !! key = Some agent ∧
    Agent.logs agent = None ∧ Agent.id agent = None.
Proof.
  intros Ht Htype Hpayload Haid Htruthy Hkey Hproto Hunseen.
  assert (∀ update,
            agents (filed key aid update (addLog event state)) !! key
            = Some (spread Agent.empty update)) as Hcreate.
  { intros update. rewrite filed_lookup. unfold currentAgent. simpl.
    by rewrite Hunseen, bool_decide_eq_true_2. }
  unfold agent_types in Ht. rewrite !elem_of_cons, elem_of_nil in Ht.
  destruct Ht as [->|[->|[->|[->|[->|[]]]]]]; run_handler;
    rewrite Hcreate; eexists; (split; [reflexivity|]); by split.
Qed.

(** The theorem at the first thought of an agent called [constructor]: the
    record filed for it has no [logs], where a record made from the
    placeholder has the empty list. *)
Lemma prototype_named_agent_has_no_logs_witness :
  let event :=
    envelope "agent_thinking"
      {[ "agent_id" := JStr "constructor"; "thought" := JStr "Searching..." ]} in
  agents initial !! "constructor" = None ∧
  agents (exec (handleEvent event) initial) !! "constructor"
  = Some {| Agent.id := None;
            Agent.name := None;
            Agent.role := None;
            Agent.status := Some (JStr "thinking");
            Agent.thought := Some (JStr "Searching...");
            Agent.lastToolCall := None;
            Agent.output := None;
            Agent.logs := None |} ∧
  agents (exec (handleEvent event) initial) !! "constructor" ≫= Agent.logs
  ≠ Some [].
Proof.
  intros event. split; [reflexivity|].
  destruct (prototype_named_agent_has_no_logs event
              {[ "agent_id" := JStr "constructor";
                 "thought" := JStr "Searching..." ]}
              (JStr "constructor") "constructor" "agent_thinking" initial)
    as (agent & Hagent & Hlogs & _);
    [unfold agent_types; by repeat constructor|reflexivity..
    |unfold Object_prototype; by repeat constructor|reflexivity|].
  assert (agents (exec (handleEvent event) initial) !! "constructor"
          = Some {| Agent.id := None; Agent.name := None; Agent.role := None;
                    Agent.status := Some (JStr "thinking");
                    Agent.thought := Some (JStr "Searching...");
                    Agent.lastToolCall := None; Agent.output := None;
                    Agent.logs := None |}) as Hrecord by reflexivity.
  split; [exact Hrecord|].
  rewrite Hagent. simpl. rewrite Hlogs. discriminate.
Defined.

(** * Further properties of the store, the hook and the pages *)

(** ** Sessions *)

Lemma onmessage_store parsed state :
  (onmessage parsed state).1
  = match parsed with
    | Some data => exec (handleEvent data) state
    | None => state
    end.
Proof.
  destruct parsed as [data|]; [|reflexivity].
  unfold onmessage, exec, mbind, Handler_bind. simpl.
  by destruct (handleEvent data state) as [[[]|e] state'].
Qed.

Lemma session_cons sig rest state :
  (session (sig :: rest) state).1 = (session rest (deliver sig state).1).1.
Proof.
  simpl. destruct (deliver sig state) as [state' out]. simpl.
  by destruct (session rest state') as [state'' out'].
Qed.

Lemma session_cons_out sig rest state :
  (session (sig :: rest) state).2
  = ((deliver sig state).2 ++ (session rest (deliver sig state).1).2)%list.
Proof.
  simpl. destruct (deliver sig state) as [state' out]. simpl.
  by destruct (session rest state') as [state'' out'].
Qed.

(** A relation between stores that every delivery respects is respected by
    every session. *)
Lemma session_respects (R : WorkflowState → WorkflowState → Prop) :
  (∀ s, R s s) →
  (∀ s1 s2 s3, R s1 s2 → R s2 s3 → R s1 s3) →
  (∀ sig s, R s (deliver sig s).1) →
  ∀ sigs s, R s (session sigs s).1.
Proof.
  intros Hrefl Htrans Hstep sigs. induction sigs as [|sig rest IH]; intros s.
  - apply Hrefl.
  - rewrite session_cons. eapply Htrans; [apply Hstep|apply IH].
Qed.

(** The log of the store is the sequence of decoded messages in arrival
    order: every message that parses is appended, whatever it is and
    whether or not the handler throws on it; messages that do not parse,
    opens and closes add nothing; and nothing is ever removed or reordered.
    From the initial store the log is exactly what was received. *)
Theorem session_logs (sigs : list signal) (state : WorkflowState) :
  logs (session sigs state).1 = (logs state ++ received sigs)%list ∧
  logs (session sigs initial).1 = received sigs.
Proof.
  assert (∀ s, logs (session sigs s).1 = (logs s ++ received sigs)%list)
    as Hlogs.
  { induction sigs as [|sig rest IH]; intros s.
    - simpl. by rewrite app_nil_r.
    - rewrite session_cons, IH. destruct sig as [|[data|]|]; simpl.
      + reflexivity.
      + rewrite onmessage_store, handleEvent_logs. by rewrite <- app_assoc.
      + reflexivity.
      + reflexivity. }
  split; apply Hlogs.
Qed.

(** No transport signal changes [workflowId], and messages do not change
    [connected]: through a run of messages the flag stays what the last
    open or close made it. *)
Theorem session_workflowId_connected (sigs : list signal) (state : WorkflowState) :
  workflowId (session sigs state).1 = workflowId state ∧
  (Forall (λ sig, ∃ parsed, sig = Message parsed) sigs →
   connected (session sigs state).1 = connected state).
Proof.
  split.
  - apply (session_respects (λ s s', workflowId s' = workflowId s));
      [done|congruence|].
    intros [|parsed|] s; simpl; try reflexivity.
    rewrite onmessage_store. destruct parsed; [|reflexivity].
    apply handleEvent_workflowId.
  - revert state. induction sigs as [|sig rest IH]; intros state Hmsgs.
    + reflexivity.
    + apply Forall_cons in Hmsgs as [[parsed ->] Hrest].
      rewrite session_cons, IH by done. simpl.
      rewrite onmessage_store. destruct parsed; [|reflexivity].
      apply handleEvent_connected.
Qed.

(** The theorem at a run of three messages after an open. *)
Lemma session_workflowId_connected_witness :
  let msgs :=
    [Message (Some (envelope "status_change" {[ "status" := JStr "running" ]}));
     Message None;
     Message (Some JNull)] in
  let state := (onopen (setWorkflowId "workflow_1" initial)).1 in
  Forall (λ sig, ∃ parsed, sig = Message parsed) msgs ∧
  workflowId (session msgs state).1 = Some "workflow_1" ∧
  connected (session msgs state).1 = true.
Proof.
  intros msgs state.
  assert (Forall (λ sig, ∃ parsed, sig = Message parsed) msgs) as Hmsgs.
  { repeat constructor; eexists; reflexivity. }
  split; [exact Hmsgs|].
  destruct (session_workflowId_connected msgs state) as [Hid Hconn].
  split; [exact Hid|exact (Hconn Hmsgs)].
Defined.

(** ** Exceptions in [handleEvent] *)

Lemma read_nullish v k : read v k = None ↔ nullish v.
Proof.
  unfold nullish. destruct v; simpl; split; try discriminate; try tauto.
  all: intros [H|H]; discriminate H.
Qed.

Lemma read_Some_any v k k' x : read v k = Some x → ∃ y, read v k' = Some y.
Proof. destruct v; simpl; try discriminate; eauto. Qed.

Lemma read_conflict v k k' x : read v k = Some x → read v k' = None → False.
Proof. by destruct v. Qed.

(** Only arrays and objects can fail to convert to a key, and they are
    truthy. *)
Lemma unconvertible_truthy v : ToPropertyKey v = None → ToBoolean v = true.
Proof. by destruct v as [| |[]| | | |]. Qed.

(** [handleEvent] throws exactly in three cases: when the event itself is
    [null] or [undefined]; when its type is one of the case labels and its
    payload is [null] or [undefined]; and when its type is one of the five
    agent events and its [agent_id] does not convert to a property key (an
    object that has a [toString] key of its own, or an array holding one).
    What it throws is a [TypeError].  An event of an unknown type never
    throws, whatever its payload. *)
Theorem handleEvent_throws_iff (event : value) (state : WorkflowState) :
  (thrown (handleEvent event) state = None ∨
   thrown (handleEvent event) state = Some TypeError) ∧
  (thrown (handleEvent event) state = Some TypeError ↔
   nullish event ∨
   (∃ t pl, t ∈ declared_types ∧ read event "type" = Some (JStr t) ∧
            read event "payload" = Some pl ∧ nullish pl) ∨
   (∃ t pl aid, t ∈ agent_types ∧ read event "type" = Some (JStr t) ∧
                read event "payload" = Some pl ∧
                read pl "agent_id" = Some aid ∧ ToPropertyKey aid = None)).
Proof.
  destruct (read event "type") as [v|] eqn:Htype.
  2:{ assert (nullish event) as Hevent by by eapply read_nullish.
      run_handler; (split; [by right|]; split; [by left|done]). }
  assert (¬ nullish event) as Hevent.
  { intros Hn. apply (read_nullish _ "type") in Hn. congruence. }
  destruct (read event "payload") as [pl|] eqn:Hpl;
    [|apply read_nullish in Hpl; done].
  split; [run_handler; by auto|]. split.
  - run_handler; try discriminate; intros _;
      repeat match goal with
             | H : strict_eq _ _ = true |- _ => apply strict_eq_true in H; subst
             end.
    all: try (exfalso; by eapply truthy_has_entries).
    all: first
      [ right; left; eexists _, pl;
        split; [unfold declared_types; by repeat constructor|];
        split; [reflexivity|]; split; [reflexivity|];
        by eapply read_nullish
      | right; right; eexists _, pl, _;
        split; [unfold agent_types; by repeat constructor|];
        split; [reflexivity|]; split; [reflexivity|];
        split; eassumption ].
  - intros [Hn|[(t & pl' & Hin & [= ->] & [= <-] & Hn)
               |(t & pl' & aid & Hin & [= ->] & [= <-] & Haid & Hkey)]];
      [done| |].
    + unfold declared_types in Hin. rewrite !elem_of_cons, elem_of_nil in Hin.
      destruct Hn as [->| ->];
        destruct Hin as [->|[->|[->|[->|[->|[->|[->|[->|[]]]]]]]]];
        by run_handler.
    + pose proof (unconvertible_truthy _ Hkey) as Htruthy.
      unfold agent_types in Hin. rewrite !elem_of_cons, elem_of_nil in Hin.
      destruct Hin as [->|[->|[->|[->|[->|[]]]]]]; by run_handler.
Qed.

(** When [handleEvent] throws, the actions dispatched before the throw stay
    applied.  For every type but one that is the log append alone; a
    [workflow_complete] whose payload is [null] or missing has already set
    the status to "completed" when reading [results] throws, so the workflow
    is marked completed without results. *)
Theorem handleEvent_throw_state (event : value) (state : WorkflowState) :
  thrown (handleEvent event) state = Some TypeError →
  (read event "type" = Some (JStr "workflow_complete") →
   exec (handleEvent event) state
   = setStatus (JStr "completed") (addLog event state)) ∧
  (read event "type" ≠ Some (JStr "workflow_complete") →
   exec (handleEvent event) state = addLog event state).
Proof.
  intros Hthrown. split.
  - intros Htype. revert Hthrown. run_handler; done.
    (* only the read of [results] can throw here *)
  - intros Htype. revert Hthrown.
    destruct (read event "type") as [v|] eqn:Hv; [|by run_handler].
    run_handler; try done.
    all: try (exfalso; by eapply truthy_has_entries).
    all: try (exfalso; by eapply read_conflict).
    match goal with
    | H : strict_eq _ "workflow_complete" = true |- _ =>
        apply strict_eq_true in H; by subst
    end.
Qed.

(** The theorem at a completion message without payload, and at an agent
    message whose payload is [null]. *)
Lemma handleEvent_throw_state_witness :
  let bare := JObj {[ "type" := JStr "workflow_complete" ]} in
  let hollow := JObj {[ "type" := JStr "agent_start"; "payload" := JNull ]} in
  thrown (handleEvent bare) initial = Some TypeError ∧
  status (exec (handleEvent bare) initial) = JStr "completed" ∧
  results (exec (handleEvent bare) initial) = JNull ∧
  thrown (handleEvent hollow) initial = Some TypeError ∧
  exec (handleEvent hollow) initial = addLog hollow initial.
Proof.
  intros bare hollow.
  assert (thrown (handleEvent bare) initial = Some TypeError) as Hbare
    by reflexivity.
  assert (thrown (handleEvent hollow) initial = Some TypeError) as Hhollow
    by reflexivity.
  destruct (handleEvent_throw_state bare initial Hbare) as [Hcomplete _].
  destruct (handleEvent_throw_state hollow initial Hhollow) as [_ Hother].
  split; [exact Hbare|].
  split; [by rewrite Hcomplete|]. split; [by rewrite Hcomplete|].
  split; [exact Hhollow|]. apply Hother. discriminate.
Defined.

(** ** More about agent records *)

(** An event changes at most the record filed under the key its [agent_id]
    converts to: every other agent record is left as it is. *)
Theorem handleEvent_touches_named_agent
    (event : value) (state : WorkflowState) (k : string) :
  (∀ pl aid, read event "payload" = Some pl → read pl "agent_id" = Some aid →
             ToPropertyKey aid ≠ Some k) →
  agents (exec (handleEvent event) state) !! k = agents state !! k.
Proof.
  intros Hother.
  destruct (read event "payload") as [pl|] eqn:Hpl.
  - destruct (read pl "agent_id") as [aid|] eqn:Haid.
    + specialize (Hother pl aid eq_refl Haid).
      run_handler; try reflexivity.
      all: etrans; [apply filed_lookup_ne; congruence|reflexivity].
    + run_handler; reflexivity.
  - run_handler; reflexivity.
Qed.

(** The theorem at a failure of agent [a2], seen from agent [a1]. *)
Lemma handleEvent_touches_named_agent_witness :
  let state :=
    applyAll
      [envelope "agent_start" {[ "agent_id" := JStr "a1"; "agent_name" := JStr "R";
                                 "role" := JStr "Researcher" ]};
       envelope "agent_start" {[ "agent_id" := JStr "a2"; "agent_name" := JStr "W";
                                 "role" := JStr "Writer" ]}]
      initial in
  let failure := envelope "error" {[ "agent_id" := JStr "a2" ]} in
  agents (exec (handleEvent failure) state) !! "a2" ≫= Agent.status
  = Some (JStr "failed") ∧
  agents (exec (handleEvent failure) state) !! "a1" = agents state !! "a1".
Proof.
  intros state failure. split; [reflexivity|].
  apply handleEvent_touches_named_agent.
  intros pl aid [= <-] [= <-]. discriminate.
Defined.

Lemma filed_keeps_record key agentId update state k agent :
  Partial.id update = None →
  agents state !! k = Some agent →
  ∃ agent', agents (filed key agentId update state) !! k = Some agent' ∧
            Agent.id agent' = Agent.id agent.
Proof.
  intros Hid Hagent. destruct (decide (k = key)) as [->|Hne].
  - rewrite filed_lookup. unfold currentAgent. rewrite Hagent.
    eexists. split; [reflexivity|]. simpl. by rewrite Hid.
  - rewrite filed_lookup_ne by done. eauto.
Qed.

Lemma handleEvent_keeps_record event state k agent :
  agents state !! k = Some agent →
  ∃ agent', agents (exec (handleEvent event) state) !! k = Some agent' ∧
            Agent.id agent' = Agent.id agent.
Proof.
  intros Hagent. run_handler; eauto.
  all: by apply (filed_keeps_record _ _ _ (addLog event state)).
Qed.

(** Agent records are never deleted and never re-identified: an agent the
    store has keeps a record under the same key, with the same [id],
    through every session. *)
Theorem session_keeps_agents
    (sigs : list signal) (state : WorkflowState) (k : string) (agent : Agent.t) :
  agents state !! k = Some agent →
  ∃ agent', agents (session sigs state).1 !! k = Some agent' ∧
            Agent.id agent' = Agent.id agent.
Proof.
  revert state agent. induction sigs as [|sig rest IH]; intros state agent Hagent.
  - eauto.
  - rewrite session_cons.
    assert (∃ agent', agents (deliver sig state).1 !! k = Some agent' ∧
                      Agent.id agent' = Agent.id agent) as (mid & Hmid & Hid).
    { destruct sig as [|[data|]|]; simpl; eauto.
      rewrite onmessage_store. by apply handleEvent_keeps_record. }
    destruct (IH _ _ Hmid) as (agent' & Hagent' & Hid').
    exists agent'. split; [done|congruence].
Qed.

(** The theorem at agent [a1], followed through its completion, a failure
    and a close. *)
Lemma session_keeps_agents_witness :
  let state :=
    exec (handleEvent (envelope "agent_start"
            {[ "agent_id" := JStr "a1"; "agent_name" := JStr "R";
               "role" := JStr "Researcher" ]})) initial in
  let sigs :=
    [Message (Some (envelope "agent_complete"
        {[ "agent_id" := JStr "a1"; "output" := JStr "done" ]}));
     Message (Some (envelope "error" {[ "agent_id" := JStr "a1" ]}));
     Close] in
  ∃ agent', agents (session sigs state).1 !! "a1" = Some agent' ∧
            Agent.id agent' = Some (JStr "a1").
Proof.
  intros state sigs.
  exact (session_keeps_agents sigs state "a1"
           {| Agent.id := Some (JStr "a1"); Agent.name := Some (JStr "R");
              Agent.role := Some (JStr "Researcher");
              Agent.status := Some (JStr "running");
              Agent.thought := None; Agent.lastToolCall := None;
              Agent.output := None; Agent.logs := Some [] |} eq_refl).
Defined.

Lemma filed_keyed_by_id key agentId update state :
  ToPropertyKey agentId = Some key →
  Partial.id update = None →
  keyed_by_id state → keyed_by_id (filed key agentId update state).
Proof.
  intros Hkey Hid Hinv. unfold keyed_by_id, filed. simpl.
  apply map_Forall_insert_2; [|exact Hinv].
  simpl. rewrite Hid. simpl. unfold currentAgent.
  destruct (agents state !! key) as [agent|] eqn:Hagent.
  - exact (Hinv _ _ Hagent).
  - case_bool_decide; simpl; done.
Qed.

Lemma handleEvent_keyed_by_id event state :
  keyed_by_id state → keyed_by_id (exec (handleEvent event) state).
Proof.
  intros Hinv. run_handler;
    first [exact Hinv | by apply filed_keyed_by_id].
Qed.

(** Every record that has an [id] is filed under the key its [id] converts
    to, and the only records without [id] are those filed under the name of
    a member of [Object.prototype]: the property holds of the initial
    store, and every session keeps it.  (The cards of [ExecutionPage] take
    [agent.id] as their key.) *)
Theorem session_keyed_by_id (sigs : list signal) (state : WorkflowState) :
  keyed_by_id initial ∧
  (keyed_by_id state → keyed_by_id (session sigs state).1).
Proof.
  split; [apply map_Forall_empty|].
  revert state. induction sigs as [|sig rest IH]; intros state Hinv.
  - exact Hinv.
  - rewrite session_cons. apply IH.
    destruct sig as [|[data|]|]; simpl; try exact Hinv.
    rewrite onmessage_store. by apply handleEvent_keyed_by_id.
Qed.

(** The theorem at a session that files an agent under a numeric id and one
    under the name [constructor]. *)
Lemma session_keyed_by_id_witness :
  let sigs :=
    [Open;
     Message (Some (envelope "agent_start"
        {[ "agent_id" := JNum (Number 7 I); "agent_name" := JStr "R";
           "role" := JStr "Researcher" ]}));
     Message (Some (envelope "tool_call"
        {[ "agent_id" := JStr "constructor"; "tool_name" := JStr "search_web" ]}))] in
  keyed_by_id (session sigs initial).1 ∧
  agents (session sigs initial).1 !! "7" ≫= Agent.id = Some (JNum (Number 7 I)) ∧
  agents (session sigs initial).1 !! "constructor" ≫= Agent.id = None.
Proof.
  intros sigs. split; [|split; reflexivity].
  destruct (session_keyed_by_id sigs initial) as [Hinit Hkeep].
  exact (Hkeep Hinit).
Defined.

(** An event naming, by an id that converts to a property key, an agent
    the store already has is merged into its record: the fields the event
    carries are overwritten, all others keep their values.  In particular
    an [agent_start] for a known agent does not start a fresh record:
    thought, last tool call and output of the earlier run stay; and a
    [tool_call] does not change the status. *)
Theorem known_agent_is_merged
    (event : value) (p : gmap string value) (aid : value) (key : string)
    (agent : Agent.t) (state : WorkflowState) :
  read event "payload" = Some (JObj p) →
  p !! "agent_id" = Some aid →
  ToPropertyKey aid = Some key →
  agents state !! key = Some agent →
  (read event "type" = Some (JStr "agent_start") →
   agents (exec (handleEvent event) state) !! key
   = Some {| Agent.id := Agent.id agent;
             Agent.name := Some (default JUndefined (p !! "agent_name"));
             Agent.role := Some (default JUndefined (p !! "role"));
             Agent.status := Some (JStr "running");
             Agent.thought := Agent.thought agent;
             Agent.lastToolCall := Agent.lastToolCall agent;
             Agent.output := Agent.output agent;
             Agent.logs := Agent.logs agent |}) ∧
  (read event "type" = Some (JStr "agent_thinking") →
   agents (exec (handleEvent event) state) !! key
   = Some {| Agent.id := Agent.id agent;
             Agent.name := Agent.name agent;
             Agent.role := Agent.role agent;
             Agent.status := Some (JStr "thinking");
             Agent.thought := Some (default JUndefined (p !! "thought"));
             Agent.lastToolCall := Agent.lastToolCall agent;
             Agent.output := Agent.output agent;
             Agent.logs := Agent.logs agent |}) ∧
  (read event "type" = Some (JStr "tool_call") →
   agents (exec (handleEvent event) state) !! key
   = Some {| Agent.id := Agent.id agent;
             Agent.name := Agent.name agent;
             Agent.role := Agent.role agent;
             Agent.status := Agent.status agent;
             Agent.thought := Agent.thought agent;
             Agent.lastToolCall := Some (default JUndefined (p !! "tool_name"));
             Agent.output := Agent.output agent;
             Agent.logs := Agent.logs agent |}) ∧
  (read event "type" = Some (JStr "agent_complete") →
   agents (exec (handleEvent event) state) !! key
   = Some {| Agent.id := Agent.id agent;
             Agent.name := Agent.name agent;
             Agent.role := Agent.role agent;
             Agent.status := Some (JStr "success");
             Agent.thought := Agent.thought agent;
             Agent.lastToolCall := Agent.lastToolCall agent;
             Agent.output := Some (default JUndefined (p !! "output"));
             Agent.logs := Agent.logs agent |}) ∧
  (read event "type" = Some (JStr "error") → ToBoolean aid = true →
   agents (exec (handleEvent event) state) !! key
   = Some {| Agent.id := Agent.id agent;
             Agent.name := Agent.name agent;
             Agent.role := Agent.role agent;
             Agent.status := Some (JStr "failed");
             Agent.thought := Agent.thought agent;
             Agent.lastToolCall := Agent.lastToolCall agent;
             Agent.output := Agent.output agent;
             Agent.logs := Agent.logs agent |}).
Proof.
  intros Hpayload Haid Hkey Hknown.
  assert (∀ update,
            agents (filed key aid update (addLog event state)) !! key
            = Some (spread agent update)) as Hmerge.
  { intros update. rewrite filed_lookup. unfold currentAgent. simpl.
    by rewrite Hknown. }
  repeat split; intros Htype; try intros Htruthy; run_handler;
    by rewrite Hmerge.
Qed.

(** The theorem at an agent that has completed and is started again. *)
Lemma known_agent_is_merged_witness :
  let state :=
    applyAll
      [envelope "agent_start" {[ "agent_id" := JStr "a1"; "agent_name" := JStr "R";
                                 "role" := JStr "Researcher" ]};
       envelope "agent_thinking" {[ "agent_id" := JStr "a1";
                                    "thought" := JStr "Searching..." ]};
       envelope "agent_complete" {[ "agent_id" := JStr "a1";
                                    "output" := JStr "Found it" ]}]
      initial in
  let again :=
    envelope "agent_start" {[ "agent_id" := JStr "a1"; "agent_name" := JStr "R2";
                              "role" := JStr "Editor" ]} in
  agents (exec (handleEvent again) state) !! "a1"
  = Some {| Agent.id := Some (JStr "a1");
            Agent.name := Some (JStr "R2");
            Agent.role := Some (JStr "Editor");
            Agent.status := Some (JStr "running");
            Agent.thought := Some (JStr "Searching...");
            Agent.lastToolCall := None;
            Agent.output := Some (JStr "Found it");
            Agent.logs := Some [] |}.
Proof.
  intros state again.
  destruct (known_agent_is_merged again
              {[ "agent_id" := JStr "a1"; "agent_name" := JStr "R2";
                 "role" := JStr "Editor" ]}
              (JStr "a1") "a1"
              {| Agent.id := Some (JStr "a1"); Agent.name := Some (JStr "R");
                 Agent.role := Some (JStr "Researcher");
                 Agent.status := Some (JStr "success");
                 Agent.thought := Some (JStr "Searching...");
                 Agent.lastToolCall := None;
                 Agent.output := Some (JStr "Found it");
                 Agent.logs := Some [] |}
              state) as (Hstart & _); [reflexivity..|].
  etrans; [apply Hstart; reflexivity|reflexivity].
Defined.

(** An agent event whose payload has no [agent_id] is not dropped: the four
    cases that call [updateAgent] without a test file it under the key
    "undefined", creating there a record whose [id] is [undefined] when the
    key was free. *)
Theorem missing_agent_id_files_under_undefined
    (event : value) (p : gmap string value) (t : string) (state : WorkflowState) :
  t ∈ ["agent_start"; "agent_thinking"; "tool_call"; "agent_complete"] →
  read event "type" = Some (JStr t) →
  read event "payload" = Some (JObj p) →
  p !! "agent_id" = None →
  ∃ agent,
    agents (exec (handleEvent event) state) !! "undefined" = Some agent ∧
    (agents state !! "undefined" = None → Agent.id agent = Some JUndefined).
Proof.
  intros Ht Htype Hpayload Hmissing.
  rewrite !elem_of_cons, elem_of_nil in Ht.
  destruct Ht as [->|[->|[->|[->|[]]]]]; run_handler.
  all: rewrite filed_lookup; eexists; split; [reflexivity|].
  all: intros Hfree; unfold currentAgent;
    change (agents (addLog event state)) with (agents state);
    by rewrite Hfree.
Qed.

(** The theorem at a [tool_call] without [agent_id]. *)
Lemma missing_agent_id_files_under_undefined_witness :
  let event := envelope "tool_call" {[ "tool_name" := JStr "search_web" ]} in
  ∃ agent,
    agents (exec (handleEvent event) initial) !! "undefined" = Some agent ∧
    (agents initial !! "undefined" = None → Agent.id agent = Some JUndefined).
Proof.
  intros event.
  apply (missing_agent_id_files_under_undefined event
           {[ "tool_name" := JStr "search_web" ]} "tool_call" initial);
    [|reflexivity..].
  rewrite !elem_of_cons. tauto.
Defined.

Lemma filed_logs_empty key agentId update state :
  Partial.logs update = None →
  agent_logs_empty state → agent_logs_empty (filed key agentId update state).
Proof.
  intros Hlogs Hinv. unfold agent_logs_empty, filed. simpl.
  apply map_Forall_insert_2; [|exact Hinv].
  simpl. rewrite Hlogs. simpl. unfold currentAgent.
  destruct (agents state !! key) as [agent|] eqn:Hagent.
  - exact (Hinv _ _ Hagent).
  - case_bool_decide; simpl; [by right|by left].
Qed.

Lemma handleEvent_logs_empty event state :
  agent_logs_empty state → agent_logs_empty (exec (handleEvent event) state).
Proof.
  intros Hinv. run_handler;
    first [exact Hinv | by apply filed_logs_empty].
Qed.

(** No handler writes the [logs] of an agent: a record has the empty list
    its placeholder was created with, or none at all when it was created
    under the name of a member of [Object.prototype]; the property holds of
    the initial store, and every session keeps it. *)
Theorem session_agent_logs (sigs : list signal) (state : WorkflowState) :
  agent_logs_empty initial ∧
  (agent_logs_empty state → agent_logs_empty (session sigs state).1).
Proof.
  split; [apply map_Forall_empty|].
  revert state. induction sigs as [|sig rest IH]; intros state Hinv.
  - exact Hinv.
  - rewrite session_cons. apply IH.
    destruct sig as [|[data|]|]; simpl; try exact Hinv.
    rewrite onmessage_store. by apply handleEvent_logs_empty.
Qed.

(** The theorem at a session with one agent of either kind. *)
Lemma session_agent_logs_witness :
  let sigs :=
    [Open;
     Message (Some (envelope "agent_start"
        {[ "agent_id" := JStr "a1"; "agent_name" := JStr "R";
           "role" := JStr "Researcher" ]}));
     Message (Some (envelope "agent_complete"
        {[ "agent_id" := JStr "valueOf"; "output" := JStr "done" ]}))] in
  agent_logs_empty (session sigs initial).1 ∧
  agents (session sigs initial).1 !! "a1" ≫= Agent.logs = Some [] ∧
  agents (session sigs initial).1 !! "valueOf" ≫= Agent.logs = None.
Proof.
  intros sigs. split; [|split; reflexivity].
  destruct (session_agent_logs sigs initial) as [Hinit Hkeep].
  exact (Hkeep Hinit).
Defined.

(** An agent event whose [agent_id] is an object with a [toString] entry
    of its own throws a [TypeError] when [updateAgent] computes the key:
    the event is logged, no record is filed and nothing else changes. *)
Theorem unconvertible_agent_id_throws
    (event : value) (p m : gmap string value) (t : string)
    (state : WorkflowState) :
  t ∈ agent_types →
  read event "type" = Some (JStr t) →
  read event "payload" = Some (JObj p) →
  p !! "agent_id" = Some (JObj m) →
  is_Some (m !! "toString") →
  thrown (handleEvent event) state = Some TypeError ∧
  exec (handleEvent event) state = addLog event state.
Proof.
  intros Ht Htype Hpayload Haid [x Hx].
  assert (ToPropertyKey (JObj m) = None) as Hkey
    by (unfold ToPropertyKey; simpl; by rewrite Hx).
  unfold agent_types in Ht. rewrite !elem_of_cons, elem_of_nil in Ht.
  destruct Ht as [->|[->|[->|[->|[->|[]]]]]];
    split; run_handler; reflexivity || congruence.
Qed.

(** The theorem at a thought of an agent named by such an object. *)
Lemma unconvertible_agent_id_throws_witness :
  let event :=
    envelope "agent_thinking"
      {[ "agent_id" := JObj {[ "toString" := JNum (Number 1 I) ]};
         "thought" := JStr "Searching..." ]} in
  thrown (handleEvent event) initial = Some TypeError ∧
  exec (handleEvent event) initial = addLog event initial.
Proof.
  intros event.
  apply (unconvertible_agent_id_throws event
           {[ "agent_id" := JObj {[ "toString" := JNum (Number 1 I) ]};
              "thought" := JStr "Searching..." ]}
           {[ "toString" := JNum (Number 1 I) ]} "agent_thinking" initial);
    [|reflexivity..|by eexists].
  unfold agent_types. rewrite !elem_of_cons. tauto.
Defined.

(** ** Which event writes which field *)

Lemma not_type_strict_eq v t :
  Some v ≠ Some (JStr t) → strict_eq v t = false.
Proof.
  intros Hne. destruct (strict_eq v t) eqn:Heq; [|done].
  apply strict_eq_true in Heq. congruence.
Qed.

(** The progress is written by [status_change] alone, the status by
    [status_change] and [workflow_complete] alone, the partial results by
    [tool_result] alone, and the agents by the five agent events alone:
    every other event, of a declared type or not, well-formed or not,
    leaves the field as it is. *)
Theorem handleEvent_field_writers (event : value) (state : WorkflowState) :
  (read event "type" ≠ Some (JStr "status_change") →
   progress (exec (handleEvent event) state) = progress state) ∧
  (read event "type" ≠ Some (JStr "status_change") →
   read event "type" ≠ Some (JStr "workflow_complete") →
   status (exec (handleEvent event) state) = status state) ∧
  (read event "type" ≠ Some (JStr "tool_result") →
   partialResults (exec (handleEvent event) state) = partialResults state) ∧
  ((∀ t, t ∈ agent_types → read event "type" ≠ Some (JStr t)) →
   agents (exec (handleEvent event) state) = agents state).
Proof.
  destruct (read event "type") as [v|] eqn:Hv;
    [|repeat split; intros; run_handler; reflexivity].
  repeat split.
  - intros H1. apply not_type_strict_eq in H1.
    run_handler; reflexivity || congruence.
  - intros H1 H2. apply not_type_strict_eq in H1, H2.
    run_handler; reflexivity || congruence.
  - intros H1. apply not_type_strict_eq in H1.
    run_handler; reflexivity || congruence.
  - intros Hnone.
    assert (∀ t, t ∈ agent_types → strict_eq v t = false) as Hagent
      by (intros t Hin; by apply not_type_strict_eq, Hnone).
    pose proof (Hagent "agent_start") as H1.
    pose proof (Hagent "agent_thinking") as H2.
    pose proof (Hagent "tool_call") as H3.
    pose proof (Hagent "agent_complete") as H4.
    pose proof (Hagent "error") as H5.
    unfold agent_types in H1, H2, H3, H4, H5.
    specialize (H1 ltac:(by repeat constructor)).
    specialize (H2 ltac:(by repeat constructor)).
    specialize (H3 ltac:(by repeat constructor)).
    specialize (H4 ltac:(by repeat constructor)).
    specialize (H5 ltac:(by repeat constructor)).
    run_handler; reflexivity || congruence.
Qed.

(** The theorem at a [tool_result], which writes none of progress, status
    and agents. *)
Lemma handleEvent_field_writers_witness :
  let state :=
    applyAll
      [envelope "status_change" {[ "status" := JStr "running";
                                   "percent_complete" := JNum (Number 25 I) ]};
       envelope "agent_start" {[ "agent_id" := JStr "a1"; "agent_name" := JStr "R";
                                 "role" := JStr "Researcher" ]}]
      initial in
  let event :=
    envelope "tool_result"
      {[ "agent_id" := JStr "a1";
         "data_extracted" := JObj {[ "topic" := JStr "MetaFlow" ]} ]} in
  progress (exec (handleEvent event) state) = JNum (Number 25 I) ∧
  status (exec (handleEvent event) state) = JStr "running" ∧
  agents (exec (handleEvent event) state) = agents state.
Proof.
  intros state event.
  destruct (handleEvent_field_writers event state)
    as (Hprogress & Hstatus & _ & Hagents).
  assert (read event "type" = Some (JStr "tool_result")) as Htype
    by reflexivity.
  split; [etrans; [apply Hprogress; rewrite Htype; discriminate|reflexivity]|].
  split; [etrans; [apply Hstatus; rewrite Htype; discriminate|reflexivity]|].
  apply Hagents. intros t Hin. rewrite Htype. intros [= <-].
  clear -Hin. unfold agent_types in Hin.
  rewrite !elem_of_cons, elem_of_nil in Hin.
  destruct Hin as [H|[H|[H|[H|[H|[]]]]]]; discriminate H.
Defined.

(** ** How store actions compose *)

Lemma spread_spread agent update :
  spread (spread agent update) update = spread agent update.
Proof.
  destruct update as [[] [] [] [] [] [] [] []]; reflexivity.
Qed.

Lemma filed_filed key agentId update state :
  filed key agentId update (filed key agentId update state)
  = filed key agentId update state.
Proof.
  unfold filed, currentAgent. simpl. f_equal.
  rewrite lookup_insert_eq, spread_spread.
  apply insert_insert_eq.
Qed.

(** Applying the same update to the same agent twice is the same as applying
    it once; an update that throws, throws both times. *)
Theorem updateAgent_idempotent
    (agentId : value) (update : Partial.t) (state : WorkflowState) :
  updateAgent agentId update state ≫= updateAgent agentId update
  = updateAgent agentId update state.
Proof.
  destruct (ToPropertyKey agentId) as [key|] eqn:Hkey.
  - rewrite (updateAgent_Some _ _ state key Hkey). simpl.
    rewrite (updateAgent_Some _ _ _ key Hkey). by rewrite filed_filed.
  - by rewrite (updateAgent_None _ _ state Hkey).
Qed.



(** Inserting a list of bindings one by one is a union with the map that
    the list read backwards denotes, so that later bindings win. *)
Lemma foldl_insert_union (l : list (string * value)) (m : gmap string value) :
  foldl (λ m kv, <[kv.1 := kv.2]> m) m l = list_to_map (reverse l) ∪ m.
Proof.
  revert m. induction l as [|[k v] rest IH]; intros m.
  - simpl. by rewrite (left_id_L ∅ (∪)).
  - simpl. rewrite IH, reverse_cons, list_to_map_app. simpl.
    rewrite <- (assoc_L (∪)). f_equal.
    rewrite insert_empty. by rewrite <- insert_union_singleton_l.
Qed.

Lemma foldl_insert_twice (l : list (string * value)) (m : gmap string value) :
  foldl (λ m kv, <[kv.1 := kv.2]> m) (foldl (λ m kv, <[kv.1 := kv.2]> m) m l) l
  = foldl (λ m kv, <[kv.1 := kv.2]> m) m l.
Proof.
  rewrite !foldl_insert_union.
  by rewrite (assoc_L (∪)), (idemp_L (∪)).
Qed.

Lemma filed_again key agentId update event state :
  filed key agentId update
    (addLog event (filed key agentId update (addLog event state)))
  = addLog event (filed key agentId update (addLog event state)).
Proof.
  unfold filed, currentAgent, addLog. simpl. f_equal.
  rewrite lookup_insert_eq, spread_spread.
  apply insert_insert_eq.
Qed.

(** Delivering the same message twice in a row changes nothing but the log:
    the second delivery appends its log entry and every other field stays
    as the first delivery left it.  This holds for every value, the ones on
    which the handler throws included. *)
Theorem duplicate_delivery_only_logs (event : value) (state : WorkflowState) :
  exec (handleEvent event) (exec (handleEvent event) state)
  = addLog event (exec (handleEvent event) state).
Proof.
  run_handler;
    first [ reflexivity
          | apply filed_again
          | unfold addLog; simpl; f_equal; exact (foldl_insert_twice _ _) ].
Qed.

(** ** Partial results: the other shapes of [data_extracted] *)

(** A [tool_result] whose [data_extracted] is falsy ([null], [false], 0,
    the empty string, or missing), a number or a boolean writes nothing:
    its only effect is the log append. *)
Theorem tool_result_scalar_writes_nothing
    (event : value) (p : gmap string value) (state : WorkflowState) :
  read event "type" = Some (JStr "tool_result") →
  read event "payload" = Some (JObj p) →
  (ToBoolean (default JUndefined (p !! "data_extracted")) = false ∨
   (∃ n, p !! "data_extracted" = Some (JNum n)) ∨
   (∃ b, p !! "data_extracted" = Some (JBool b))) →
  exec (handleEvent event) state = addLog event state.
Proof.
  intros Htype Hpayload [Hfalsy|[[n Hn]|[b Hb]]].
  - by run_handler.
  - run_handler; try reflexivity.
    all: match goal with
         | H : Object_entries _ = _ |- _ => simpl in H; by simplify_eq
         end.
  - run_handler; try reflexivity.
    all: match goal with
         | H : Object_entries _ = _ |- _ => simpl in H; by simplify_eq
         end.
Qed.

(** The theorem at [data_extracted: null] and at [data_extracted: 42]. *)
Lemma tool_result_scalar_writes_nothing_witness :
  let none := envelope "tool_result" {[ "data_extracted" := JNull ]} in
  let number := envelope "tool_result" {[ "data_extracted" := JNum (Number 42 I) ]} in
  exec (handleEvent none) initial = addLog none initial ∧
  exec (handleEvent number) initial = addLog number initial.
Proof.
  intros none number. split.
  - apply (tool_result_scalar_writes_nothing none
             {[ "data_extracted" := JNull ]}); [reflexivity..|].
    by left.
  - apply (tool_result_scalar_writes_nothing number
             {[ "data_extracted" := JNum (Number 42 I) ]}); [reflexivity..|].
    right; left. by eexists.
Defined.

Lemma indexed_entries_NoDup (items : list value) :
  NoDup (imap (λ (i : nat) (x : value), (pretty i, x)) items).*1.
Proof.
  apply NoDup_alt. intros i j k Hi Hj.
  rewrite list_lookup_fmap, list_lookup_imap in Hi, Hj.
  destruct (items !! i) as [x|]; [|discriminate].
  destruct (items !! j) as [y|]; [|discriminate].
  simpl in Hi, Hj. injection Hi as <-. injection Hj as Hj.
  by apply (inj pretty) in Hj.
Qed.

Lemma indexed_entries_lookup (items : list value) (k : string) :
  (list_to_map (imap (λ (i : nat) (x : value), (pretty i, x)) items)
     : gmap string value) !! k
  = None ↔ ∀ i, i < length items → k ≠ pretty i.
Proof.
  rewrite <- not_elem_of_list_to_map. split.
  - intros Hnot i Hi ->. apply Hnot.
    destruct (lookup_lt_is_Some_2 items i Hi) as [x Hx].
    apply list_elem_of_fmap. exists (pretty i, x). split; [done|].
    by apply (elem_of_lookup_imap_2 (λ (i : nat) (x : value), (pretty i, x))).
  - intros Hne Hin. apply list_elem_of_fmap in Hin as ([k' x] & -> & Hin).
    apply elem_of_lookup_imap_1 in Hin as (i & y & [= -> ->] & Hi).
    apply (Hne i); [|done]. by eapply lookup_lt_Some.
Qed.

(** A [tool_result] whose [data_extracted] is an array writes its elements
    under their indices "0", "1", ...; every key that is not such an index
    keeps its value. *)
Theorem tool_result_array_writes_indices
    (event : value) (p : gmap string value) (items : list value)
    (state : WorkflowState) :
  read event "type" = Some (JStr "tool_result") →
  read event "payload" = Some (JObj p) →
  p !! "data_extracted" = Some (JArr items) →
  (∀ i x, items !! i = Some x →
     partialResults (exec (handleEvent event) state) !! pretty i = Some x) ∧
  (∀ k, (∀ i, i < length items → k ≠ pretty i) →
     partialResults (exec (handleEvent event) state) !! k
     = partialResults state !! k).
Proof.
  intros Htype Hpayload Hd.
  assert (∀ k,
    partialResults (exec (handleEvent event) state) !! k
    = (list_to_map (imap (λ (i : nat) (x : value), (pretty i, x)) items)
         : gmap string value) !! k ∪ partialResults state !! k) as Hlookup.
  { intros k. run_handler;
      match goal with
      | H : Object_entries _ = _ |- _ => simpl in H; simplify_eq
      end.
    exact (foldl_insert_lookup _ (partialResults state) k
             (indexed_entries_NoDup items)). }
  split.
  - intros i x Hi. rewrite Hlookup.
    assert ((list_to_map (imap (λ (i : nat) (x : value), (pretty i, x)) items)
               : gmap string value) !! pretty i = Some x) as ->;
      [|by destruct (partialResults state !! pretty i)].
    apply elem_of_list_to_map_1; [apply indexed_entries_NoDup|].
    by apply (elem_of_lookup_imap_2 (λ (i : nat) (x : value), (pretty i, x))).
  - intros k Hk. rewrite Hlookup.
    apply indexed_entries_lookup in Hk. rewrite Hk.
    by destruct (partialResults state !! k).
Qed.

(** The theorem at a two-element array arriving after a mapping. *)
Lemma tool_result_array_writes_indices_witness :
  let state :=
    exec (handleEvent (envelope "tool_result"
            {[ "data_extracted" := JObj {[ "topic" := JStr "MetaFlow" ]} ]}))
         initial in
  let event :=
    envelope "tool_result"
      {[ "data_extracted" := JArr [JStr "first"; JStr "second"] ]} in
  partialResults (exec (handleEvent event) state) !! "0" = Some (JStr "first") ∧
  partialResults (exec (handleEvent event) state) !! "1" = Some (JStr "second") ∧
  partialResults (exec (handleEvent event) state) !! "topic"
  = Some (JStr "MetaFlow").
Proof.
  intros state event.
  destruct (tool_result_array_writes_indices event
              {[ "data_extracted" := JArr [JStr "first"; JStr "second"] ]}
              [JStr "first"; JStr "second"] state)
    as [Hitems Hother]; [reflexivity..|].
  split; [exact (Hitems 0 (JStr "first") eq_refl)|].
  split; [exact (Hitems 1 (JStr "second") eq_refl)|].
  etrans; [apply Hother|reflexivity].
  intros i Hi. simpl in Hi.
  destruct i as [|[|i]]; [discriminate..|lia].
Defined.

(** ** What the hook emits *)

(** No sequence of transport signals makes the hook close the socket: the
    only [close] is the one of the effect's clean-up.  In particular a
    message that cannot be parsed, or on which the handler throws, leaves
    the connection open. *)
Theorem session_never_closes (sigs : list signal) (state : WorkflowState) :
  (ws_close ∉ (session sigs state).2) ∧ ws_close ∈ (cleanup state).2.
Proof.
  split; [|by apply list_elem_of_singleton].
  revert state. induction sigs as [|sig rest IH]; intros state.
  - simpl. apply not_elem_of_nil.
  - rewrite session_cons_out, elem_of_app. intros [Hin|Hin]; [|by eapply IH].
    destruct sig as [|[data|]|]; simpl in Hin.
    + apply list_elem_of_singleton in Hin. discriminate Hin.
    + unfold onmessage, mbind, Handler_bind in Hin. simpl in Hin.
      destruct (handleEvent data state) as [[[]|e] state']; simpl in Hin.
      * by apply elem_of_nil in Hin.
      * apply list_elem_of_singleton in Hin. discriminate Hin.
    + apply list_elem_of_singleton in Hin. discriminate Hin.
    + apply list_elem_of_singleton in Hin. discriminate Hin.
Qed.

(** ** The pages *)

Lemma waiting_for_data_empty state :
  waiting_for_data state = true ↔ partialResults state = ∅.
Proof.
  unfold waiting_for_data. rewrite bool_decide_eq_true, length_fmap.
  rewrite length_zero_iff_nil. apply map_to_list_empty_iff.
Qed.

Lemma handleEvent_keeps_findings event state k :
  is_Some (partialResults state !! k) →
  is_Some (partialResults (exec (handleEvent event) state) !! k).
Proof.
  intros Hk. run_handler; try exact Hk.
  change (is_Some (foldl (λ m kv, <[kv.1 := kv.2]> m)
                     (partialResults state) l !! k)).
  rewrite foldl_insert_union. apply lookup_union_is_Some. by right.
Qed.

(** Findings are never withdrawn: a key of [partialResults] stays a key
    through every session, so once the findings box of [ExecutionPage] has
    left "Waiting for data..." it never shows it again. *)
Theorem session_keeps_findings (sigs : list signal) (state : WorkflowState) :
  (∀ k, is_Some (partialResults state !! k) →
        is_Some (partialResults (session sigs state).1 !! k)) ∧
  (waiting_for_data state = false →
   waiting_for_data (session sigs state).1 = false).
Proof.
  assert (∀ k, is_Some (partialResults state !! k) →
               is_Some (partialResults (session sigs state).1 !! k)) as Hkeys.
  { intros k. revert state. induction sigs as [|sig rest IH]; intros state Hk.
    - exact Hk.
    - rewrite session_cons. apply IH.
      destruct sig as [|[data|]|]; simpl; try exact Hk.
      rewrite onmessage_store. by apply handleEvent_keeps_findings. }
  split; [exact Hkeys|].
  intros Hshown. apply not_true_is_false. intros Hwaiting.
  apply waiting_for_data_empty in Hwaiting.
  apply not_true_iff_false in Hshown. apply Hshown, waiting_for_data_empty.
  apply map_empty. intros k.
  destruct (partialResults state !! k) as [x|] eqn:Hk; [|done].
  destruct (Hkeys k) as [y Hy]; [by rewrite Hk|].
  rewrite Hwaiting, lookup_empty in Hy. discriminate Hy.
Qed.

(** The theorem at a finding followed by a completion and a close. *)
Lemma session_keeps_findings_witness :
  let state :=
    exec (handleEvent (envelope "tool_result"
            {[ "data_extracted" := JObj {[ "topic" := JStr "MetaFlow" ]} ]}))
         initial in
  let sigs :=
    [Message (Some (envelope "workflow_complete" {[ "results" := JNull ]}));
     Message (Some (envelope "tool_result" {[ "data_extracted" := JObj ∅ ]}));
     Close] in
  waiting_for_data initial = true ∧
  waiting_for_data state = false ∧
  waiting_for_data (session sigs state).1 = false.
Proof.
  intros state sigs. split; [reflexivity|].
  assert (waiting_for_data state = false) as Hshown by reflexivity.
  split; [exact Hshown|].
  exact (proj2 (session_keeps_findings sigs state) Hshown).
Defined.

(** The condition under which the effect of [ExecutionPage] moves to the
    results page holds after every [workflow_complete] message, one without
    payload included (the status is set before the payload is read); and
    the only messages that can make it hold are [workflow_complete] and
    [status_change]. *)
Theorem navigation_follows_completion (event : value) (state : WorkflowState) :
  (read event "type" = Some (JStr "workflow_complete") →
   navigates_to_results (exec (handleEvent event) state) = true) ∧
  (navigates_to_results state = false →
   navigates_to_results (exec (handleEvent event) state) = true →
   read event "type" = Some (JStr "workflow_complete") ∨
   read event "type" = Some (JStr "status_change")).
Proof.
  split.
  - intros Htype. run_handler; reflexivity.
  - intros Hbefore.
    destruct (read event "type") as [v|] eqn:Hv.
    + run_handler;
        repeat match goal with
               | H : strict_eq _ _ = true |- _ =>
                   apply strict_eq_true in H; subst
               end;
        try (by left); try (by right);
        intros Hafter; exfalso; revert Hbefore Hafter;
        unfold navigates_to_results; simpl; congruence.
    + run_handler; intros Hafter; exfalso; revert Hbefore Hafter;
        unfold navigates_to_results; simpl; congruence.
Qed.

(** The theorem at a completion message that has no payload. *)
Lemma navigation_follows_completion_witness :
  let bare := JObj {[ "type" := JStr "workflow_complete" ]} in
  navigates_to_results initial = false ∧
  navigates_to_results (exec (handleEvent bare) initial) = true.
Proof.
  intros bare. split; [reflexivity|].
  exact (proj1 (navigation_follows_completion bare initial) eq_refl).
Defined.

Lemma string_app_inj (p s t : string) : p +:+ s = p +:+ t → s = t.
Proof.
  induction p as [|c p IH]; simpl; [done|]. intros [= H]. by apply IH.
Qed.

(** The effect of the hook gets past its guard, to [new WebSocket(url)],
    exactly when the store holds a non-empty [workflowId]; the URL that
    [ExecutionPage] passes ends in that id, so two different workflows never
    share a URL. *)
Theorem socket_iff_workflowId (state state' : WorkflowState) :
  (creates_socket (websocket_url state) = true ↔
   ∃ id, workflowId state = Some id ∧ id ≠ "") ∧
  (creates_socket (websocket_url state) = true →
   websocket_url state = websocket_url state' →
   workflowId state = workflowId state').
Proof.
  unfold websocket_url. split.
  - destruct (workflowId state) as [id|]; simpl.
    + destruct (String.eqb_spec id "") as [->|Hne]; simpl.
      * split; [discriminate|]. by intros (id & [= <-] & Hne).
      * split; [by eauto|]. intros _. reflexivity.
    + split; [discriminate|]. by intros (id & [=] & _).
  - destruct (workflowId state) as [id|]; simpl; [|discriminate].
    destruct (String.eqb_spec id "") as [->|Hne]; simpl; [discriminate|].
    intros _. destruct (workflowId state') as [id'|]; [|discriminate].
    destruct (String.eqb id' ""); [discriminate|].
    intros [= Heq]. f_equal. by eapply string_app_inj.
Qed.

(** The theorem at the initial store and at two started workflows. *)
Lemma socket_iff_workflowId_witness :
  creates_socket (websocket_url initial) = false ∧
  creates_socket (websocket_url (setWorkflowId "" initial)) = false ∧
  creates_socket (websocket_url (handleGenerate 1700000000000 initial)) = true ∧
  websocket_url (handleGenerate 1700000000000 initial)
  ≠ websocket_url (handleGenerate 1700000000001 initial).
Proof.
  split; [reflexivity|]. split; [reflexivity|]. split; [reflexivity|].
  intros Heq.
  pose proof (proj2 (socket_iff_workflowId
                       (handleGenerate 1700000000000 initial)
                       (handleGenerate 1700000000001 initial))
                eq_refl Heq) as Hid.
  vm_compute in Hid. discriminate Hid.
Defined.

(** Starting a workflow from [PromptBuilder] does not reset the store: the
    new run gets its own id and URL, and everything the previous run left
    is still there.  After a completed run the status is still "completed",
    so [ExecutionPage] schedules the move to the results page as soon as it
    shows the new workflow. *)
Theorem new_workflow_inherits_store
    (now : Z) (sigs : list signal) (event : value) (state0 : WorkflowState) :
  read event "type" = Some (JStr "workflow_complete") →
  let state := exec (handleEvent event) (session sigs state0).1 in
  let state' := handleGenerate now state in
  workflowId state' = Some ("workflow_" +:+ pretty now) ∧
  creates_socket (websocket_url state') = true ∧
  navigates_to_results state' = true ∧
  progress state' = progress state ∧
  agents state' = agents state ∧
  logs state' = logs state ∧
  results state' = results state ∧
  partialResults state' = partialResults state.
Proof.
  intros Htype state state'. repeat split.
  unfold state', state. generalize (session sigs state0).1. intros s.
  run_handler; reflexivity.
Qed.

(** The theorem at a second workflow started after the first completed. *)
Lemma new_workflow_inherits_store_witness :
  let done_ := envelope "workflow_complete"
                 {[ "results" := JObj {[ "summary" := JStr "done" ]} ]} in
  let sigs :=
    [Open;
     Message (Some (envelope "agent_start"
        {[ "agent_id" := JStr "a1"; "agent_name" := JStr "R";
           "role" := JStr "Researcher" ]}))] in
  let state' :=
    handleGenerate 1700000000001
      (exec (handleEvent done_)
         (session sigs (handleGenerate 1700000000000 initial)).1) in
  workflowId state' = Some "workflow_1700000000001" ∧
  navigates_to_results state' = true ∧
  results state' = JObj {[ "summary" := JStr "done" ]} ∧
  is_Some (agents state' !! "a1").
Proof.
  intros done_ sigs state'.
  destruct (new_workflow_inherits_store 1700000000001 sigs done_
              (handleGenerate 1700000000000 initial) eq_refl)
    as (Hid & _ & Hnav & _ & Hagents & _ & Hresults & _).
  split; [exact Hid|]. split; [exact Hnav|].
  split; [etrans; [exact Hresults|reflexivity]|].
  unfold state'. rewrite Hagents. by eexists.
Defined.

(** [ResultsPage] prints the final results when they are truthy and falls
    back to the partial results otherwise: after a [workflow_complete]
    whose [results] are missing, [null], [false], 0 or the empty string the
    page shows the findings gathered so far. *)
Theorem key_findings_after_completion
    (event : value) (p : gmap string value) (state : WorkflowState) :
  read event "type" = Some (JStr "workflow_complete") →
  read event "payload" = Some (JObj p) →
  (ToBoolean (default JUndefined (p !! "results")) = true →
   key_findings (exec (handleEvent event) state)
   = default JUndefined (p !! "results")) ∧
  (ToBoolean (default JUndefined (p !! "results")) = false →
   key_findings (exec (handleEvent event) state)
   = JObj (partialResults state)).
Proof.
  intros Htype Hpayload. unfold key_findings.
  assert (results (exec (handleEvent event) state)
          = default JUndefined (p !! "results")) as -> by by run_handler.
  assert (partialResults (exec (handleEvent event) state)
          = partialResults state) as -> by by run_handler.
  split; by intros ->.
Qed.

(** The theorem at a completion with [results: null] after one finding. *)
Lemma key_findings_after_completion_witness :
  let state :=
    exec (handleEvent (envelope "tool_result"
            {[ "data_extracted" := JObj {[ "topic" := JStr "MetaFlow" ]} ]}))
         initial in
  let empty := envelope "workflow_complete" {[ "results" := JNull ]} in
  let full := envelope "workflow_complete"
                {[ "results" := JObj {[ "summary" := JStr "done" ]} ]} in
  key_findings (exec (handleEvent empty) state)
  = JObj {[ "topic" := JStr "MetaFlow" ]} ∧
  key_findings (exec (handleEvent full) state)
  = JObj {[ "summary" := JStr "done" ]}.
Proof.
  intros state empty full. split.
  - destruct (key_findings_after_completion empty {[ "results" := JNull ]}
                state) as [_ Hfalsy]; [reflexivity..|].
    etrans; [apply Hfalsy; reflexivity|reflexivity].
  - destruct (key_findings_after_completion full
                {[ "results" := JObj {[ "summary" := JStr "done" ]} ]}
                state) as [Htruthy _]; [reflexivity..|].
    etrans; [apply Htruthy; reflexivity|reflexivity].
Defined.

Lemma LogsPanel_row_None log :
  LogsPanel_row log = None ↔
  nullish log ∨ ∃ ts, read log "timestamp" = Some ts ∧ ToPrimitive ts = None.
Proof.
  unfold LogsPanel_row, nullish. split.
  - destruct (read log "timestamp") as [ts|] eqn:Hts.
    + destruct (ToPrimitive ts) eqn:Hprim; [|by eauto].
      destruct log; try discriminate Hts.
      all: simpl; rewrite Hprim; intros Hrow; discriminate Hrow.
    + destruct log; try discriminate Hts; by eauto.
  - intros [[-> | ->]|(ts & -> & Hprim)]; [reflexivity..|].
    simpl. by rewrite Hprim.
Qed.

(** [LogsPanel] renders one row per log entry, and rendering throws exactly
    when some entry is [null] or [undefined], or has a [timestamp] that
    [new Date] cannot convert to a primitive. *)
Theorem LogsPanel_throws_iff (state : WorkflowState) :
  (LogsPanel_rows state = None ↔
   ∃ log, log ∈ logs state ∧
          (nullish log ∨
           ∃ ts, read log "timestamp" = Some ts ∧ ToPrimitive ts = None)) ∧
  (∀ rows, LogsPanel_rows state = Some rows →
           length rows = length (logs state)).
Proof.
  unfold LogsPanel_rows. split.
  - rewrite mapM_None, Exists_exists.
    split; intros (log & Hin & Hlog); exists log;
      (split; [done|by apply LogsPanel_row_None]).
  - intros rows Hrows. apply mapM_Some_1 in Hrows.
    symmetry. by eapply Forall2_length.
Qed.

Lemma deliver_keeps_log_entry sig state log :
  log ∈ logs state → log ∈ logs (deliver sig state).1.
Proof.
  intros Hin. destruct sig as [|[data|]|]; simpl; try exact Hin.
  rewrite onmessage_store, handleEvent_logs. apply elem_of_app. by left.
Qed.

Lemma session_keeps_log_entry sigs state log :
  log ∈ logs state → log ∈ logs (session sigs state).1.
Proof.
  revert state. induction sigs as [|sig rest IH]; intros state Hin.
  - exact Hin.
  - rewrite session_cons. by apply IH, deliver_keeps_log_entry.
Qed.

(** One message whose text is [null] breaks [LogsPanel] for the rest of the
    session: the message parses, the handler logs it before throwing, and
    since log entries are never removed every later rendering throws. *)
Theorem null_message_breaks_LogsPanel
    (sigs : list signal) (state : WorkflowState) :
  Message (Some JNull) ∈ sigs →
  LogsPanel_rows (session sigs state).1 = None.
Proof.
  intros Hin. unfold LogsPanel_rows. apply mapM_None, Exists_exists.
  exists JNull. split; [|reflexivity].
  revert state. induction sigs as [|sig rest IH]; intros state.
  - by apply elem_of_nil in Hin.
  - rewrite session_cons. apply elem_of_cons in Hin as [<-|Hin].
    + apply session_keeps_log_entry. unfold deliver.
      rewrite onmessage_store, handleEvent_logs. apply elem_of_app. right.
      by apply list_elem_of_singleton.
    + by apply IH.
Qed.

(** The theorem at a session in which good messages follow the [null]. *)
Lemma null_message_breaks_LogsPanel_witness :
  let sigs :=
    [Open;
     Message (Some (envelope "status_change" {[ "status" := JStr "running" ]}));
     Message (Some JNull);
     Message (Some (envelope "status_change" {[ "status" := JStr "paused" ]}))] in
  Message (Some JNull) ∈ sigs ∧
  LogsPanel_rows (session [Open] initial).1 = Some [] ∧
  LogsPanel_rows (session sigs initial).1 = None.
Proof.
  intros sigs.
  assert (Message (Some JNull) ∈ sigs) as Hin by (by repeat constructor).
  split; [exact Hin|]. split; [reflexivity|].
  exact (null_message_breaks_LogsPanel sigs initial Hin).
Defined.
